(** * noaa_scrapper: master/worker download and aggregation of NOAA yearly archives

    A shallow embedding of [noaa_scrapper.py] and the properties of its
    configuration helpers, of the body of the worker loop and of the
    master loop.

    Conventions of the embedding:
    - Python [str] is [string], the sequence of its code points, which are
      taken to be below 256; among these the decimal digits of [\d] and of
      [int] are 0..9 alone.  File contents are [list Byte.byte].
    - A compiled pattern of the [re] module is a value of [Re.regex]; the
      pattern text of the source is quoted next to each pattern.
      [re.match] is implemented and shown to agree with the language of
      the pattern; [re.findall] is a parameter of [Master.start].
    - Exceptions are values of [Exn]; a computation that can raise returns
      a sum or threads a [Worker.World] through a small state-and-error
      monad.
    - The network, the clock and the other processes are inputs: a function
      from URLs to responses, and a list of observations, one per iteration
      of the master loop.  Clock readings and [run_time_max] are integers
      in one unit of time.
    - [requests], [tarfile], [gzip] and [os] are modelled at their
      interface: a response is its status, its text and the member list of
      its body; extraction writes each member under the destination, later
      members over earlier ones of the same name, as [tarfile] of
      Python 3.11 does; a file written through [gzip.open] is identified
      with what it decompresses to.
    - The file system holds regular files and directories, no links.  A
      path below the temporary directory is the list of names joined to
      it; a year and a member name are each taken as one path component.
      What depends on which file a member name denotes is stated for plain
      names ([Os.plain]).
    - [multiprocessing.Queue()] has no bound: a non-blocking put succeeds. *)

From Stdlib Require Import ZArith Ascii String List DecimalString DecimalZ.
From Stdlib.Strings Require Import Byte.
From stdpp Require Import gmap strings list sorting.
Import ListNotations.

Local Open Scope string_scope.
Local Open Scope list_scope.
Local Open Scope Z_scope.

Definition bytes := list Byte.byte.

(** ** The fragment of [re] the program uses *)

Module Re.

(** Compiled patterns.  [Digit] is [\d], which among the code points
    below 256 matches 0..9 alone; [Dot] is [.] (any character but a
    newline); [Group] is a capturing group. *)
Inductive regex : Type :=
| Never
| Eps
| Chr (c : ascii)
| Digit
| Dot
| Cat (r1 r2 : regex)
| Alt (r1 r2 : regex)
| Star (r : regex)
| Group (r : regex).

(** [r+] *)
Definition Plus (r : regex) : regex := Cat r (Star r).

Definition is_digit (c : ascii) : bool :=
  (48 <=? nat_of_ascii c)%nat && (nat_of_ascii c <=? 57)%nat.

Definition is_newline (c : ascii) : bool := Ascii.eqb c "010"%char.

(** The strings a pattern matches in full. *)
Inductive matches : regex -> string -> Prop :=
| m_eps : matches Eps EmptyString
| m_chr c : matches (Chr c) (String c EmptyString)
| m_digit c : is_digit c = true -> matches Digit (String c EmptyString)
| m_dot c : is_newline c = false -> matches Dot (String c EmptyString)
| m_cat r1 r2 s1 s2 :
    matches r1 s1 -> matches r2 s2 -> matches (Cat r1 r2) (s1 +:+ s2)
| m_alt_l r1 r2 s : matches r1 s -> matches (Alt r1 r2) s
| m_alt_r r1 r2 s : matches r2 s -> matches (Alt r1 r2) s
| m_star_nil r : matches (Star r) EmptyString
| m_star_app r s1 s2 :
    matches r s1 -> matches (Star r) s2 -> matches (Star r) (s1 +:+ s2)
| m_group r s : matches r s -> matches (Group r) s.

Fixpoint nullable (r : regex) : bool :=
  match r with
  | Never | Chr _ | Digit | Dot => false
  | Eps | Star _ => true
  | Cat r1 r2 => nullable r1 && nullable r2
  | Alt r1 r2 => nullable r1 || nullable r2
  | Group r => nullable r
  end.

(** What is left of [r] after reading [c]. *)
Fixpoint deriv (c : ascii) (r : regex) : regex :=
  match r with
  | Never | Eps => Never
  | Chr d => if Ascii.eqb c d then Eps else Never
  | Digit => if is_digit c then Eps else Never
  | Dot => if is_newline c then Never else Eps
  | Cat r1 r2 =>
      if nullable r1
      then Alt (Cat (deriv c r1) r2) (deriv c r2)
      else Cat (deriv c r1) r2
  | Alt r1 r2 => Alt (deriv c r1) (deriv c r2)
  | Star r => Cat (deriv c r) (Star r)
  | Group r => deriv c r
  end.

(** [re.match(pattern, s)] is truthy when the pattern matches at the
    beginning of [s]: some prefix of [s] is matched in full. *)
Fixpoint re_match (r : regex) (s : string) : bool :=
  nullable r ||
  match s with
  | EmptyString => false
  | String c s' => re_match (deriv c r) s'
  end.

End Re.

(** ** The fragment of [str] and the builtins the program uses *)

Module Py.

(** [s.isascii()] *)
Definition isascii (s : string) : bool :=
  forallb (fun c => (nat_of_ascii c <? 128)%nat) (list_ascii_of_string s).

(** [c in s] for a one-character [c]. *)
Fixpoint contains (c : ascii) (s : string) : bool :=
  match s with
  | EmptyString => false
  | String d s' => Ascii.eqb d c || contains c s'
  end.

(** [needle in hay] for two [str]. *)
Fixpoint str_in (needle hay : string) : bool :=
  String.prefix needle hay ||
  match hay with
  | EmptyString => false
  | String _ hay' => str_in needle hay'
  end.

(** [s.split(sep)] for a one-character separator: never the empty list. *)
Fixpoint split (sep : ascii) (s : string) : list string :=
  match s with
  | EmptyString => [EmptyString]
  | String c s' =>
      if Ascii.eqb c sep then EmptyString :: split sep s'
      else match split sep s' with
           | [] => [String c EmptyString]
           | h :: t => String c h :: t
           end
  end.

(** [s.rstrip(c) + c] support: drop every trailing [c]. *)
Fixpoint rstrip (c : ascii) (s : string) : string :=
  match s with
  | EmptyString => EmptyString
  | String d s' =>
      match rstrip c s' with
      | EmptyString => if Ascii.eqb d c then EmptyString else String d EmptyString
      | t => String d t
      end
  end.

(** The blanks [int] strips from both ends of its argument: the ASCII
    ones, 9..13 and 32, and the two blanks above 127, U+0085 and U+00A0. *)
Definition is_space (c : ascii) : bool :=
  let n := nat_of_ascii c in
  (n =? 32)%nat || ((9 <=? n)%nat && (n <=? 13)%nat)
  || (n =? 133)%nat || (n =? 160)%nat.

Fixpoint lstrip_space (s : string) : string :=
  match s with
  | EmptyString => EmptyString
  | String c s' => if is_space c then lstrip_space s' else s
  end.

Fixpoint rstrip_space (s : string) : string :=
  match s with
  | EmptyString => EmptyString
  | String c s' =>
      match rstrip_space s' with
      | EmptyString => if is_space c then EmptyString else String c EmptyString
      | t => String c t
      end
  end.

Definition digit_value (c : ascii) : Z := Z.of_nat (nat_of_ascii c) - 48.

(** The digits of an [int] literal: groups of digits separated by single
    underscores.  [after_digit] tells whether the previous character was
    a digit. *)
Fixpoint int_digits (acc : Z) (after_digit : bool) (s : string) : option Z :=
  match s with
  | EmptyString => if after_digit then Some acc else None
  | String c s' =>
      if Re.is_digit c then int_digits (10 * acc + digit_value c) true s'
      else if Ascii.eqb c "_"%char
           then (if after_digit then int_digits acc false s' else None)
           else None
  end.

(** [sys.int_info.default_max_str_digits]: the longest decimal text that
    [int] converts. *)
Definition MAX_STR_DIGITS : nat := 4300.

Fixpoint count_digits (s : string) : nat :=
  match s with
  | EmptyString => O
  | String c s' =>
      if Re.is_digit c then S (count_digits s') else count_digits s'
  end.

(** An unsigned literal: refused when it has more than [MAX_STR_DIGITS]
    digits. *)
Definition int_literal (t : string) : option Z :=
  if (MAX_STR_DIGITS <? count_digits t)%nat then None
  else int_digits 0 false t.

(** [int(s)]: [None] is [ValueError]. *)
Definition int (s : string) : option Z :=
  match lstrip_space (rstrip_space s) with
  | String "+"%char t => int_literal t
  | String "-"%char t => Z.opp <$> int_literal t
  | t => int_literal t
  end.

(** [str(n)] for an [int] of at most [MAX_STR_DIGITS] digits, as those
    are that [int] returned or that lie between two of them. *)
Definition str (n : Z) : string := NilZero.string_of_int (Z.to_int n).

(** [range(a, b)] *)
Definition range (a b : Z) : list Z := seqZ a (b - a).

(** [sorted(l)] for a list of [str], whose order is lexicographic on
    code points. *)
Definition sorted (l : list string) : list string := merge_sort String.le l.

(** A decimal numeral: one or more of the digits 0..9. *)
Definition is_numeral (s : string) : bool :=
  match s with
  | EmptyString => false
  | _ => forallb Re.is_digit (list_ascii_of_string s)
  end.

(** The number a decimal numeral denotes. *)
Definition numeral_value (s : string) : Z :=
  fold_left (fun acc c => 10 * acc + digit_value c)
    (list_ascii_of_string s) 0.

End Py.

(** ** Exceptions

    The exceptions the program meets by name; [Other] is any other one,
    by the name of its class. *)

Inductive Exn : Type :=
| HTTPError (status : Z)
| RuntimeError (msg : string)
| ValueError
| IndexError
| ReadError
| EOFError
| FileExistsError
| FileNotFoundError
| IsADirectoryError
| AttributeError
| KeyError
| Other (cls : string).

(** ** Config *)

Definition DEFAULT_YEARS : list string := ["1901"; "1902"].

Module Config.

Import Re.

Definition DEFAULT_URL : string :=
  "https://www.ncei.noaa.gov/data/global-hourly/archive/isd/".

Definition lit (s : string) : regex :=
  fold_right (fun c r => Cat (Chr c) r) Eps (list_ascii_of_string s).

(** r'>(isd_\d{4}_c.*.tar.gz)<' *)
Definition DEFAULT_INDEX_REGEX : regex :=
  Cat (Chr ">")
    (Cat (Group
            (Cat (lit "isd_")
               (Cat (Cat Digit (Cat Digit (Cat Digit Digit)))
                  (Cat (lit "_c")
                     (Cat (Star Dot)
                        (Cat Dot (Cat (lit "tar") (Cat Dot (lit "gz")))))))))
       (Chr "<")).

(** r'\d+-\d+-\d+' *)
Definition DEFAULT_MEMBER_REGEX : regex :=
  Cat (Plus Digit)
    (Cat (Chr "-") (Cat (Plus Digit) (Cat (Chr "-") (Plus Digit)))).

Definition DEFAULT_RUN_TIME_MAX : Z := 300.
Definition DEFAULT_WORKERS_COUNT : Z := 2.
Definition DEFAULT_POLLING_TIMEOUT : Z := 2.
Definition DEFAULT_TERMINATE_TIMEOUT : Z := 2.
Definition DEFAULT_TMP_DIR : string := "/tmp/noaa_stuff".

Record t : Type := mk {
  url : string;
  index_regex : regex;
  member_regex : regex;
  run_time_max : Z;
  workers_count : Z;
  polling_timeout : Z;
  terminate_timeout : Z;
  years : list string;
  force : bool;
  tmp_dir : string;
  is_compress : bool;
}.

Definition default : t := {|
  url := DEFAULT_URL;
  index_regex := DEFAULT_INDEX_REGEX;
  member_regex := DEFAULT_MEMBER_REGEX;
  run_time_max := DEFAULT_RUN_TIME_MAX;
  workers_count := DEFAULT_WORKERS_COUNT;
  polling_timeout := DEFAULT_POLLING_TIMEOUT;
  terminate_timeout := DEFAULT_TERMINATE_TIMEOUT;
  years := DEFAULT_YEARS;
  force := false;
  tmp_dir := DEFAULT_TMP_DIR;
  is_compress := false;
|}.

(** [years[0]], [years[1]] raise [IndexError] out of range; [int] raises
    [ValueError]; [str(y)] of a [str] is that [str]. *)
Definition normalize_years (inp : string) : Exn + list string :=
  let years :=
    if Py.contains "," inp then Py.split "," inp else Py.split "-" inp in
  if Py.contains "-" inp then
    match years with
    | y0 :: y1 :: _ =>
        match Py.int y0 with
        | None => inl ValueError
        | Some a =>
            match Py.int y1 with
            | None => inl ValueError
            | Some b => inr (Py.sorted (map Py.str (Py.range a (b + 1))))
            end
        end
    | _ => inl IndexError
    end
  else inr (Py.sorted years).

Definition normalize_url (inp : string) : string :=
  Py.rstrip "/" inp +:+ "/".

End Config.

(** ** The file system

    Paths are kept apart by where they live: an output file in the working
    directory, named by the string the program builds for it, or a path
    below the temporary directory, named by its components.  The two trees
    are taken to be disjoint. *)

Module Os.

Inductive Path : Type :=
| Cwd (name : string)
| Under (dir : string) (parts : list string).

#[global] Instance Path_eq_dec : EqDecision Path.
Proof. solve_decision. Defined.

(** [p / s] of [pathlib], for a name [s] that is one path component. *)
Definition join (p : Path) (s : string) : Path :=
  match p with
  | Cwd n => Cwd (n +:+ "/" +:+ s)
  | Under d parts => Under d (parts ++ [s])
  end.


(** A regular file and what it holds, or a directory.  For a file written
    through [gzip.open], [data] is what the file decompresses to. *)
Inductive Node : Type :=
| File (data : bytes)
| Dir.

Definition FS : Type := Path -> option Node.

Definition fs_set (p : Path) (n : option Node) (fs : FS) : FS :=
  fun q => if decide (q = p) then n else fs q.

(** [os.path.exists] *)
Definition exists_ (fs : FS) (p : Path) : bool :=
  match fs p with
  | Some _ => true
  | None => false
  end.

(** [os.path.isfile] *)
Definition isfile (fs : FS) (p : Path) : bool :=
  match fs p with
  | Some (File _) => true
  | _ => false
  end.

(** [os.remove] *)
Definition remove (p : Path) (fs : FS) : Exn + FS :=
  match fs p with
  | Some (File _) => inr (fs_set p None fs)
  | Some Dir => inl IsADirectoryError
  | None => inl FileNotFoundError
  end.

(** [Path.mkdir(exist_ok=True, parents=True)] *)
Definition mkdir (p : Path) (fs : FS) : Exn + FS :=
  match fs p with
  | Some (File _) => inl FileExistsError
  | Some Dir => inr fs
  | None => inr (fs_set p (Some Dir) fs)
  end.

(** [open(p, 'ab')]: creates the file when it is absent. *)
Definition open_append (p : Path) (fs : FS) : Exn + FS :=
  match fs p with
  | Some (File _) => inr fs
  | Some Dir => inl IsADirectoryError
  | None => inr (fs_set p (Some (File [])) fs)
  end.

(** [fd.write(d)] on a file opened for append. *)
Definition write (p : Path) (d : bytes) (fs : FS) : Exn + FS :=
  match fs p with
  | Some (File old) => inr (fs_set p (Some (File (old ++ d))) fs)
  | Some Dir => inl IsADirectoryError
  | None => inl FileNotFoundError
  end.

(** [open(p, 'rb').read()] *)
Definition read (p : Path) (fs : FS) : Exn + bytes :=
  match fs p with
  | Some (File d) => inr d
  | Some Dir => inl IsADirectoryError
  | None => inl FileNotFoundError
  end.

End Os.

(** ** Archives and HTTP responses *)

Module Tar.

(** The members of the archives considered: regular files and
    directories, no links. *)
Inductive Kind : Type :=
| RegFile (data : bytes)
| Directory.

(** A member of an archive: [TarInfo.name] and what it extracts to. *)
Record TarInfo : Type := mk { name : string; kind : Kind }.

(** The bytes of a regular member. *)
Definition data (m : TarInfo) : bytes :=
  match kind m with
  | RegFile d => d
  | Directory => []
  end.


(** [TarFile.extract] of one member below [dest].  A regular member is
    written over the file of its name; a directory member is made with
    [os.mkdir], whose [FileExistsError] [TarFile.makedir] swallows: what
    is already at the path, a file too, stays. *)
Definition extract (dest : Os.Path) (m : TarInfo) (fs : Os.FS) : Exn + Os.FS :=
  let p := Os.join dest (name m) in
  match kind m, fs p with
  | RegFile _, Some Os.Dir => inl IsADirectoryError
  | RegFile d, _ => inr (Os.fs_set p (Some (Os.File d)) fs)
  | Directory, Some _ => inr fs
  | Directory, None => inr (Os.fs_set p (Some Os.Dir) fs)
  end.

(** [TarFile.extractall]: every member, in listing order; a later member
    of the same name overwrites an earlier one. *)
Fixpoint extractall (dest : Os.Path) (ms : list TarInfo) (fs : Os.FS)
  : Exn + Os.FS :=
  match ms with
  | [] => inr fs
  | m :: ms' =>
      match extract dest m fs with
      | inl e => inl e
      | inr fs' => extractall dest ms' fs'
      end
  end.

End Tar.

Module Http.

(** What [requests.get] returns.  [text] is the decoded body; [raw] is
    the body seen through [tarfile.open(mode='r:gz')]: the member list,
    or [None] when the body is not a gzipped tar archive; [broken] is
    what [tarfile.open] raises then: [ReadError] for a body that is
    empty or not gzip data, [EOFError] for a gzip stream that ends
    early, another exception for other damage. *)
Record Response : Type := mk {
  status_code : Z;
  text : string;
  raw : option (list Tar.TarInfo);
  broken : Exn;
}.

(** The remote side: a response for every URL. *)
Definition Net : Type := string -> Response.

(** [200 <= status_code < 300] *)
Definition success (status : Z) : bool :=
  (200 <=? status) && (status <? 300).

(** [Response.raise_for_status] of [requests]: raises for the client
    error range 400..499 and the server error range 500..599, and
    returns for every other status. *)
Definition raise_for_status (res : Response) : option Exn :=
  if (400 <=? status_code res) && (status_code res <? 600)
  then Some (HTTPError (status_code res))
  else None.

End Http.

Inductive Level : Type := INFO | WARNING.

(** ** Worker *)

Module Worker.

Import Os.

(** One constructor per [LOG] call of [Worker.run], with its arguments. *)
Inductive LogRecord : Type :=
| Fetching (url : string)
| CannotDownload (filename : string)
| AlreadyExists (year : string)
| AlreadyExistsRemoving (year : string)
| Dumping (filename : string) (tmp : Path)
| Aggregating (data_file : string) (result : Path).

(** What a worker does to the outside, in the order it does it. *)
Inductive Event : Type :=
| EvGet (url : string)
| EvReadBody (url : string)
| EvRemove (p : Path)
| EvMkdir (p : Path)
| EvExtractAll (dest : Path)
| EvOpenAppend (p : Path)
| EvWrite (p : Path) (d : bytes).

(** What a worker process can change: the file system, the shared
    [queue_done], its log and the record of its actions. *)
Record World : Type := mkWorld {
  fs : FS;
  queue_done : list string;
  log : list (Level * LogRecord);
  trace : list Event;
}.

Definition set_fs (f : FS) (w : World) : World :=
  mkWorld f (queue_done w) (log w) (trace w).

(** State and exceptions. *)
Definition M (A : Type) : Type := World -> (Exn + A) * World.

#[global] Instance M_ret : MRet M := fun A x w => (inr x, w).

#[global] Instance M_bind : MBind M := fun A B f m w =>
  match m w with
  | (inl e, w') => (inl e, w')
  | (inr x, w') => f x w'
  end.

Definition raise {A : Type} (e : Exn) : M A := fun w => (inl e, w).

Definition emit (ev : Event) : M unit := fun w =>
  (inr tt, mkWorld (fs w) (queue_done w) (log w) (trace w ++ [ev])).

Definition logm (lvl : Level) (r : LogRecord) : M unit := fun w =>
  (inr tt, mkWorld (fs w) (queue_done w) (log w ++ [(lvl, r)]) (trace w)).

(** [self.queue_done.put(year, block=False)]: [Queue()] has no bound, so
    the put always succeeds. *)
Definition put_done (year : string) : M unit := fun w =>
  (inr tt, mkWorld (fs w) (queue_done w ++ [year]) (log w) (trace w)).

Definition fs_op (f : FS -> Exn + FS) : M unit := fun w =>
  match f (fs w) with
  | inl e => (inl e, w)
  | inr fs' => (inr tt, set_fs fs' w)
  end.

Definition is_file (p : Path) : M bool := fun w => (inr (isfile (fs w) p), w).

Definition read_file (p : Path) : M bytes := fun w =>
  match read p (fs w) with
  | inl e => (inl e, w)
  | inr d => (inr d, w)
  end.

(** [get(url, stream=True)]: the status line and headers, not the body. *)
Definition get (net : Http.Net) (url : string) : M Http.Response :=
  emit (EvGet url);; mret (net url).

(** [tar_open(fileobj=BytesIO(res.raw.read()), mode='r:gz')] and
    [tar.getmembers()]. *)
Definition tar_open (url : string) (res : Http.Response)
  : M (list Tar.TarInfo) :=
  emit (EvReadBody url);;
  match Http.raw res with
  | None => raise (Http.broken res)
  | Some members => mret members
  end.

(** f'./{year}.gz' if self.conf.is_compress else f'./{year}' *)
Definition result_path (conf : Config.t) (year : string) : Path :=
  Cwd (if Config.is_compress conf then "./" +:+ year +:+ ".gz"
       else "./" +:+ year).

(** self.conf.tmp_dir / year *)
Definition tmp_path (conf : Config.t) (year : string) : Path :=
  join (Under (Config.tmp_dir conf) []) year.

(** The names the inner loop reads: the member names, in listing order,
    that [re.match] accepts. *)
Definition selected (conf : Config.t) (members : list Tar.TarInfo)
  : list string :=
  List.filter (Re.re_match (Config.member_regex conf))
    (map Tar.name members).

(** The body of [with _open(result, 'ab') as fd_result]. *)
Fixpoint aggregate (tmp result : Path) (data : list string) : M unit :=
  match data with
  | [] => mret tt
  | data_file :: rest =>
      logm INFO (Aggregating data_file result);;
      d ← read_file (join tmp data_file);
      emit (EvWrite result d);;
      fs_op (write result d);;
      aggregate tmp result rest
  end.

(** The body of [while True] in [Worker.run] once a job was dequeued. *)
Definition process (conf : Config.t) (net : Http.Net)
    (job : string * string) : M unit :=
  let '(year, filename) := job in
  let url := Config.url conf +:+ filename in
  logm INFO (Fetching url);;
  res ← get net url;
  if negb (Http.success (Http.status_code res)) then
    logm WARNING (CannotDownload filename);;
    put_done year
  else
    let result := result_path conf year in
    present ← is_file result;
    if present && negb (Config.force conf) then
      logm INFO (AlreadyExists year);;
      put_done year
    else
      stale ← is_file result;
      (if stale && Config.force conf then
         logm INFO (AlreadyExistsRemoving year);;
         emit (EvRemove result);;
         fs_op (remove result)
       else mret tt);;
      let tmp := tmp_path conf year in
      emit (EvMkdir tmp);;
      fs_op (mkdir tmp);;
      logm INFO (Dumping filename tmp);;
      members ← tar_open url res;
      let data := selected conf members in
      emit (EvExtractAll tmp);;
      fs_op (Tar.extractall tmp members);;
      emit (EvOpenAppend result);;
      fs_op (open_append result);;
      aggregate tmp result data;;
      put_done year.

(** The byte strings handed to [write] on [p], in order. *)
Fixpoint written (p : Path) (tr : list Event) : list bytes :=
  match tr with
  | [] => []
  | EvWrite q d :: tr' =>
      if decide (q = p) then d :: written p tr' else written p tr'
  | _ :: tr' => written p tr'
  end.

(** One turn of [while True]: [self.queue.get(timeout=2, block=True)]
    gives the oldest job, or raises [Empty] and the loop continues. *)
Definition run_once (conf : Config.t) (net : Http.Net)
    (queue : list (string * string)) : M (list (string * string)) :=
  match queue with
  | [] => mret []
  | job :: rest => process conf net job;; mret rest
  end.



End Worker.

(** ** Master *)

Module Master.

(** One constructor per [LOG] call of [Master.start], with its
    arguments. *)
Inductive LogRecord : Type :=
| CannotFetch (years : list string) (available : list string)
| CannotAdd (year : string)
| WaitingFor (pending : gset string)
| AllDone.

(** [self.workers] holds [None] or the number of a started worker;
    [self.queue] holds the jobs put so far. *)
Record t : Type := mk {
  conf : Config.t;
  workers : list (option nat);
  queue : list (string * string);
  log : list (Level * LogRecord);
}.

(** [Master(conf)] *)
Definition init (c : Config.t) : t :=
  mk c (replicate (Z.to_nat (Config.workers_count c)) None) [] [].

Definition logm (lvl : Level) (r : LogRecord) (m : t) : t :=
  mk (conf m) (workers m) (queue m) (log m ++ [(lvl, r)]).

(** What the master sees of the rest of the system in one iteration of
    its loop: the clock, which workers are alive, and the signals that
    are in [queue_done] when it drains it. *)
Record Tick : Type := mkTick {
  now : Z;
  alive : nat -> bool;
  done : list string;
}.

Inductive Outcome : Type :=
| Returned
| Raised (e : Exn)
| Polling (pending : gset string).

(** [for filename in findall(...)]: [_, year, *_ = filename.split('_')]
    raises [ValueError] on fewer than two parts; a later filename of the
    same year replaces an earlier one. *)
Fixpoint build_index (filenames : list string) (index : gmap string string)
  : Exn + gmap string string :=
  match filenames with
  | [] => inr index
  | filename :: rest =>
      match Py.split "_" filename with
      | _ :: year :: _ => build_index rest (<[year := filename]> index)
      | _ => inl ValueError
      end
  end.

(** [self.workers[number] = worker] after [worker.start()]. *)
Fixpoint spawn (numbers : list nat) (ws : list (option nat))
  : Exn + list (option nat) :=
  match numbers with
  | [] => inr ws
  | number :: rest =>
      if (number <? length ws)%nat
      then spawn rest (<[number := Some number]> ws)
      else inl IndexError
  end.

(** [{year for year in self.conf.years if year in index}] *)
Definition pending_of (years : list string) (index : gmap string string)
  : gset string :=
  list_to_set (filter (fun year => is_Some (index !! year)) years).

(** [self.queue.put(job, block=False)]: [Queue()] has no bound, so [Full]
    is never raised. *)
Definition put_nowait {A : Type} (q : list A) (x : A) : option (list A) :=
  Some (q ++ [x]).

(** The jobs of [years], each with its archive from the index. *)
Definition jobs_of (index : gmap string string) (years : list string)
  : list (string * string) :=
  omap (fun year => pair year <$> index !! year) years.

(** [for year in pending: ...], in the iteration order of the set. *)
Fixpoint enqueue (years : list string) (index : gmap string string) (m : t)
  : Exn + t :=
  match years with
  | [] => inr m
  | year :: rest =>
      match index !! year with
      | None => inl KeyError
      | Some filename =>
          match put_nowait (queue m) (year, filename) with
          | Some q => enqueue rest index (mk (conf m) (workers m) q (log m))
          | None => enqueue rest index (logm WARNING (CannotAdd year) m)
          end
      end
  end.

(** [pending.discard(year)] *)
Definition discard (year : string) (pending : gset string) : gset string :=
  pending ∖ {[year]}.

(** [while not self.queue_done.empty(): pending.discard(...get(...))] *)
Definition drain (pending : gset string) (signals : list string)
  : gset string :=
  foldl (fun p year => discard year p) pending signals.

(** The signals of a drained sequence whose [discard] took a year out of
    the set, in order (a ghost of [drain], for stating what leaves). *)
Fixpoint removals (pending : gset string) (signals : list string)
  : list string :=
  match signals with
  | [] => []
  | year :: rest =>
      (if decide (year ∈ pending) then [year] else [])
        ++ removals (discard year pending) rest
  end.

(** [any(not w.is_alive() for w in self.workers)]; [None] has no
    [is_alive]. *)
Fixpoint any_dead (alive : nat -> bool) (ws : list (option nat))
  : Exn + bool :=
  match ws with
  | [] => inr false
  | None :: _ => inl AttributeError
  | Some number :: rest =>
      if alive number then any_dead alive rest else inr true
  end.

(** [while pending: ...], one [Tick] per iteration; [start] is the clock
    reading taken before the loop. *)
Fixpoint poll (start : Z) (pending : gset string) (ticks : list Tick) (m : t)
  : Outcome * t :=
  if decide (pending = ∅) then (Returned, logm INFO AllDone m)
  else
    match ticks with
    | [] => (Polling pending, m)
    | tick :: rest =>
        if Config.run_time_max (conf m) <? now tick - start
        then (Raised (RuntimeError "There is some dangling work."), m)
        else
          match any_dead (alive tick) (workers m) with
          | inl e => (Raised e, m)
          | inr true => (Raised (RuntimeError "Some worker is dead :(."), m)
          | inr false =>
              let pending' := drain pending (done tick) in
              poll start pending' rest (logm INFO (WaitingFor pending') m)
          end
    end.

Section Start.

(** [re.findall]: the strings the pattern's group captured, in order. *)
Variable findall : Re.regex -> string -> list string.

(** The index document, turned into the year-to-filename dict; raises
    what [raise_for_status] raises. *)
Definition fetch_index (net : Http.Net) (c : Config.t)
  : Exn + gmap string string :=
  let res := net (Config.url c) in
  match (if negb (Http.success (Http.status_code res))
         then Http.raise_for_status res else None) with
  | Some e => inl e
  | None =>
      build_index (findall (Config.index_regex c) (Http.text res)) ∅
  end.

(** [Master.start]; [start] is the reading of [monotonic()] before the
    loop. *)
Definition start (net : Http.Net) (clock : Z) (ticks : list Tick) (m : t)
  : Outcome * t :=
  match fetch_index net (conf m) with
  | inl e => (Raised e, m)
  | inr index =>
      let count := Z.to_nat (Config.workers_count (conf m)) in
      match spawn (seq 0 count) (workers m) with
      | inl e => (Raised e, m)
      | inr ws =>
          let m1 := mk (conf m) ws (queue m) (log m) in
          let pending := pending_of (Config.years (conf m)) index in
          if decide (pending = ∅) then
            (Raised (RuntimeError "There is nothing to do."),
             logm WARNING
               (CannotFetch (Config.years (conf m))
                  (map snd (map_to_list index))) m1)
          else
            match enqueue (elements pending) index m1 with
            | inl e => (Raised e, m1)
            | inr m2 => poll clock pending ticks m2
            end
      end
  end.

End Start.

End Master.

(** ** Concrete inputs *)

Module Scenario.

Import Os.

Definition filename_1901 : string := "isd_1901_c20180826T025524.tar.gz".

Definition station : bytes := [x30; x30; x32; x39].
Definition readme : bytes := [x52; x45; x41; x44].

(** An archive with the members [010010-99999] and [README.txt]. *)
Definition archive_A : list Tar.TarInfo :=
  [Tar.mk "010010-99999" (Tar.RegFile station);
   Tar.mk "README.txt" (Tar.RegFile readme)].

(** The same with a station file named as the default pattern asks. *)
Definition archive_A3 : list Tar.TarInfo :=
  [Tar.mk "010010-99999-1901" (Tar.RegFile station);
   Tar.mk "README.txt" (Tar.RegFile readme)].

(** Every URL answers [status] with [members] as its body. *)
Definition serve (status : Z) (members : list Tar.TarInfo) : Http.Net :=
  fun _ => Http.mk status EmptyString (Some members) ReadError.

Definition no_files : FS := fun _ => None.

Definition fresh : Worker.World := Worker.mkWorld no_files [] [] [].

Definition conf_1901 : Config.t :=
  Config.mk Config.DEFAULT_URL Config.DEFAULT_INDEX_REGEX
    Config.DEFAULT_MEMBER_REGEX 300 2 2 2 ["1901"] false
    Config.DEFAULT_TMP_DIR false.

(** The same with [--force]. *)
Definition conf_force : Config.t :=
  Config.mk Config.DEFAULT_URL Config.DEFAULT_INDEX_REGEX
    Config.DEFAULT_MEMBER_REGEX 300 2 2 2 ["1901"] true
    Config.DEFAULT_TMP_DIR false.

(** A request for a year the index does not list. *)
Definition conf_1902 : Config.t :=
  Config.mk Config.DEFAULT_URL Config.DEFAULT_INDEX_REGEX
    Config.DEFAULT_MEMBER_REGEX 300 2 2 2 ["1902"] false
    Config.DEFAULT_TMP_DIR false.

Definition job_1901 : string * string := ("1901", filename_1901).

Definition out_1901 : Path := Cwd "./1901".

(** An archive that lists the name [010010-99999-1901] twice. *)
Definition archive_dup : list Tar.TarInfo :=
  [Tar.mk "010010-99999-1901" (Tar.RegFile [x61]);
   Tar.mk "010010-99999-1901" (Tar.RegFile [x62])].

(** What is left in [./1901] by an earlier run. *)
Definition stale : bytes := [x6f; x6c; x64].

Definition with_stale : Worker.World :=
  Worker.mkWorld (fs_set out_1901 (Some (File stale)) no_files) [] [] [].

(** A directory where the output of 1901 is to go. *)
Definition with_dir : Worker.World :=
  Worker.mkWorld (fs_set out_1901 (Some Dir) no_files) [] [] [].

Definition station_2 : bytes := [x30; x30; x33; x31].

(** An archive with two station files and a [README.txt] between them. *)
Definition archive_two : list Tar.TarInfo :=
  [Tar.mk "010010-99999-1901" (Tar.RegFile station);
   Tar.mk "README.txt" (Tar.RegFile readme);
   Tar.mk "010020-99999-1901" (Tar.RegFile station_2)].


(** A numeral of one digit more than [int] converts. *)
Definition long_numeral : string :=
  string_of_list_ascii (repeat "1"%char (S Py.MAX_STR_DIGITS)).

(** An index document that lists the archive of 1901. *)
Definition listing_1901 : string :=
  "<td><a>" +:+ filename_1901 +:+ "</a></td>".

(** Every URL answers [status] with the document [body]. *)
Definition serve_text (status : Z) (body : string) : Http.Net :=
  fun _ => Http.mk status body None ReadError.

(** A [findall] that finds the archive of 1901 where the document lists
    it between [>] and [<]. *)
Definition finds_1901 (_ : Re.regex) (doc : string) : list string :=
  if Py.str_in (">" +:+ filename_1901 +:+ "<") doc
  then [filename_1901] else [].

(** A [findall] that finds nothing. *)
Definition finds_nothing (_ : Re.regex) (_ : string) : list string := [].

(** The master of [conf_1901] once both workers are started and the job
    of 1901 is queued. *)
Definition polling_1901 : Master.t :=
  Master.mk conf_1901 [Some 0%nat; Some 1%nat] [job_1901] [].

(** An iteration of the master loop observed 301 time units after the
    loop started at 0, with every worker alive and nothing signalled. *)
Definition tick_late : Master.Tick := Master.mkTick 301 (fun _ => true) [].

(** The byte strings a worker writes to [./1901] when the archive of 1901
    lists [members]. *)
Definition aggregated (members : list Tar.TarInfo) : list bytes :=
  Worker.written out_1901
    (Worker.trace
       (snd (Worker.process conf_1901 (serve 200 members) job_1901 fresh))).

End Scenario.

(** ** Master.stop and main *)

Module Shutdown.

(** One constructor per [LOG] call of [Master.stop]. *)
Inductive LogRecord : Type :=
| ShuttingDown
| TryingToTerminate
| DidNotStop.

(** What [stop] does to the queues and to the worker processes. *)
Inductive Action : Type :=
| CloseQueue
| CloseQueueDone
| Terminate (number : nat)
| Kill (number : nat).

(** What [stop] sees of the worker processes: which are alive when it
    begins, and which are alive after [sleep(terminate_timeout)]. *)
Record Procs : Type := mkProcs {
  alive_before : nat -> bool;
  alive_after : nat -> bool;
}.

(** [[w for w in self.workers if w is not None]] *)
Definition started (ws : list (option nat)) : list nat := omap id ws.

(** [Master.stop]: what it does, in order, and what it logs. *)
Definition stop (procs : Procs) (m : Master.t)
  : list Action * list (Level * LogRecord) :=
  let workers := started (Master.workers m) in
  let first :=
    [CloseQueue; CloseQueueDone]
      ++ map Terminate (List.filter (alive_before procs) workers) in
  if negb (existsb (alive_after procs) workers)
  then (first, [(INFO, ShuttingDown); (INFO, TryingToTerminate)])
  else (first ++ map Kill (List.filter (alive_after procs) workers),
        [(INFO, ShuttingDown); (INFO, TryingToTerminate);
         (WARNING, DidNotStop)]).

Section Main.

Variable findall : Re.regex -> string -> list string.

(** [main(conf)]: [start] and then, whatever its outcome, [stop]; an
    exception of [start] is raised again after [stop]. *)
Definition main (net : Http.Net) (clock : Z) (ticks : list Master.Tick)
    (procs : Procs) (c : Config.t)
  : Master.Outcome * Master.t * (list Action * list (Level * LogRecord)) :=
  let '(outcome, m) :=
    Master.start findall net clock ticks (Master.init c) in
  (outcome, m, stop procs m).

End Main.

End Shutdown.

(** ** Notions used to state properties *)

Module Text.

(** The last character of a string. *)
Fixpoint last_char (s : string) : option ascii :=
  match s with
  | EmptyString => None
  | String c EmptyString => Some c
  | String _ s' => last_char s'
  end.

(** [k] slashes. *)
Fixpoint slashes (k : nat) : string :=
  match k with
  | O => EmptyString
  | S k' => String "/" (slashes k')
  end.

(** The field of an archive filename that [Master.start] takes as its
    year: the second of its underscore-separated parts. *)
Definition year_field (filename : string) : option string :=
  match Py.split "_" filename with
  | _ :: year :: _ => Some year
  | _ => None
  end.

End Text.

(** What a worker computation does to [queue_done] and to the files. *)

Module Effects.

Import Os Worker.

(** The computation leaves [queue_done] as it is, whatever its outcome. *)
Definition keeps_done {A : Type} (m : M A) : Prop :=
  forall w r w', m w = (r, w') -> queue_done w' = queue_done w.

(** What a job of [year] adds to [queue_done], by its outcome. *)
Definition signalled {A : Type} (r : Exn + A) (year : string) : list string :=
  match r with
  | inr _ => [year]
  | inl _ => []
  end.

(** The computation puts [year] on [queue_done] once when it returns and
    never when it raises. *)
Definition signals_once {A : Type} (year : string) (m : M A) : Prop :=
  forall w r w',
    m w = (r, w') -> queue_done w' = queue_done w ++ signalled r year.

(** The paths of a year: its output, its extraction directory and what
    is directly in it. *)
Definition own (conf : Config.t) (year : string) (q : Path) : Prop :=
  q = result_path conf year \/ q = tmp_path conf year \/
  exists n, q = join (tmp_path conf year) n.

(** The computation changes no path outside [P], whatever its outcome. *)
Definition touches_only {A : Type} (P : Path -> Prop) (m : M A) : Prop :=
  forall w r w' q, m w = (r, w') -> ~ P q -> fs w' q = fs w q.

End Effects.

(** The signals a list of observations of the master loop carries. *)
Definition signals_of (ticks : list Master.Tick) : list string :=
  concat (map Master.done ticks).

(** * Properties *)

(** ** The pattern matcher agrees with the language of the pattern *)

Module ReFacts.

Import Re.

Lemma append_nil_inv (s1 s2 : string) :
  s1 +:+ s2 = EmptyString -> s1 = EmptyString /\ s2 = EmptyString.
Proof. destruct s1; simpl; [tauto | discriminate]. Qed.

Lemma append_cons_inv (s1 s2 s : string) (c : ascii) :
  s1 +:+ s2 = String c s ->
  (s1 = EmptyString /\ s2 = String c s) \/
  (exists s1', s1 = String c s1' /\ s = s1' +:+ s2).
Proof.
  destruct s1 as [|d s1]; simpl; intros H.
  - left. split; [reflexivity | exact H].
  - right. injection H as -> <-. exists s1. split; reflexivity.
Qed.

Lemma nullable_matches (r : regex) : nullable r = true <-> matches r EmptyString.
Proof.
  split.
  - induction r; simpl; intros H; try discriminate.
    + constructor.
    + apply andb_prop in H as [H1 H2].
      change EmptyString with (EmptyString +:+ EmptyString). constructor; auto.
    + apply orb_prop in H as [H | H];
        [apply m_alt_l | apply m_alt_r]; auto.
    + constructor.
    + constructor; auto.
  - intros H. remember EmptyString as s eqn:Hs.
    induction H; simpl; try discriminate; try reflexivity; subst.
    + apply append_nil_inv in Hs as [-> ->].
      rewrite IHmatches1, IHmatches2; reflexivity.
    + rewrite IHmatches; reflexivity.
    + rewrite IHmatches; [apply orb_true_r | reflexivity].
    + auto.
Qed.

Lemma deriv_sound (c : ascii) (r : regex) :
  forall s, matches (deriv c r) s -> matches r (String c s).
Proof.
  induction r; simpl; intros s H.
  - inversion H.
  - inversion H.
  - destruct (Ascii.eqb c c0) eqn:E; [| inversion H].
    apply Ascii.eqb_eq in E as ->. inversion H; subst. constructor.
  - destruct (is_digit c) eqn:E; [| inversion H].
    inversion H; subst. constructor; exact E.
  - destruct (is_newline c) eqn:E; [inversion H |].
    inversion H; subst. constructor; exact E.
  - destruct (nullable r1) eqn:E.
    + inversion H; subst.
      * match goal with
        | Hc : matches (Cat _ _) _ |- _ => inversion Hc; subst
        end.
        change (String c (?a +:+ ?b)) with (String c a +:+ b).
        constructor; auto.
      * change (String c s) with (EmptyString +:+ String c s).
        constructor; [apply nullable_matches; exact E | auto].
    + inversion H; subst.
      change (String c (?a +:+ ?b)) with (String c a +:+ b).
      constructor; auto.
  - inversion H; subst; [apply m_alt_l | apply m_alt_r]; auto.
  - inversion H; subst.
    change (String c (?a +:+ ?b)) with (String c a +:+ b).
    constructor; auto.
  - constructor; auto.
Qed.

Lemma deriv_complete (c : ascii) (r : regex) (t : string) :
  matches r t -> forall s, t = String c s -> matches (deriv c r) s.
Proof.
  induction 1; intros s0 Hs; simpl; try discriminate.
  - injection Hs as -> <-. rewrite Ascii.eqb_refl. constructor.
  - injection Hs as -> <-. rewrite H. constructor.
  - injection Hs as -> <-. rewrite H. constructor.
  - apply append_cons_inv in Hs as [[-> ->] | (s1' & -> & ->)].
    + assert (nullable r1 = true) as -> by (apply nullable_matches; auto).
      apply m_alt_r. auto.
    + destruct (nullable r1).
      * apply m_alt_l. constructor; auto.
      * constructor; auto.
  - apply m_alt_l; auto.
  - apply m_alt_r; auto.
  - apply append_cons_inv in Hs as [[-> ->] | (s1' & -> & ->)].
    + apply IHmatches2. reflexivity.
    + constructor; auto.
  - auto.
Qed.

(** [re_match] holds exactly when a prefix of the string is in the
    language of the pattern. *)
Lemma re_match_spec (s : string) :
  forall r, re_match r s = true <->
            exists p q, s = p +:+ q /\ matches r p.
Proof.
  induction s as [|c s IH]; intros r; simpl.
  - rewrite orb_false_r, nullable_matches. split.
    + intros H. exists EmptyString, EmptyString. auto.
    + intros (p & q & Hpq & Hm). symmetry in Hpq.
      apply append_nil_inv in Hpq as [-> _]. exact Hm.
  - split.
    + intros H. apply orb_prop in H as [H | H].
      * exists EmptyString, (String c s). split; [reflexivity |].
        apply nullable_matches; exact H.
      * apply IH in H as (p & q & -> & Hm).
        exists (String c p), q. split; [reflexivity |].
        apply deriv_sound; exact Hm.
    + intros (p & q & Hpq & Hm). symmetry in Hpq.
      apply append_cons_inv in Hpq as [[-> _] | (p' & -> & ->)].
      * apply nullable_matches in Hm. rewrite Hm. reflexivity.
      * apply orb_true_intro. right. apply IH. exists p', q.
        split; [reflexivity |].
        eapply deriv_complete; [exact Hm | reflexivity].
Qed.

Lemma append_assoc (s t u : string) : (s +:+ t) +:+ u = s +:+ t +:+ u.
Proof.
  induction s as [|c s IH]; [reflexivity |].
  change (String c ((s +:+ t) +:+ u) = String c (s +:+ t +:+ u)).
  f_equal. exact IH.
Qed.

Lemma digits_append (s t : string) :
  forallb is_digit (list_ascii_of_string (s +:+ t))
  = forallb is_digit (list_ascii_of_string s)
    && forallb is_digit (list_ascii_of_string t).
Proof.
  induction s as [|c s IH]; simpl; [reflexivity |].
  rewrite IH. apply andb_assoc.
Qed.

Lemma star_digit_sound (r : regex) (s : string) :
  matches r s -> r = Star Digit ->
  forallb is_digit (list_ascii_of_string s) = true.
Proof.
  induction 1; intros Hr; try discriminate; [reflexivity |].
  injection Hr as ->. rewrite digits_append, IHmatches2 by reflexivity.
  inversion H as [| | c Hc | | | | | | |]; subst. simpl. rewrite Hc. reflexivity.
Qed.

Lemma star_digit_complete (s : string) :
  forallb is_digit (list_ascii_of_string s) = true -> matches (Star Digit) s.
Proof.
  induction s as [|c s IH]; simpl; intros H; [constructor |].
  apply andb_prop in H as [Hc Hs].
  change (String c s) with (String c EmptyString +:+ s).
  constructor; [constructor; exact Hc | auto].
Qed.

Lemma plus_digit_numeral (s : string) :
  matches (Plus Digit) s <-> Py.is_numeral s = true.
Proof.
  unfold Plus. split.
  - intros H. inversion H; subst.
    match goal with Hd : matches Digit _ |- _ => inversion Hd; subst end.
    simpl. apply andb_true_intro. split; [assumption |].
    eapply star_digit_sound; [eassumption | reflexivity].
  - destruct s as [|c s]; [discriminate |]. simpl. intros H.
    apply andb_prop in H as [Hc Hs].
    change (String c s) with (String c EmptyString +:+ s).
    constructor; [constructor; exact Hc | apply star_digit_complete, Hs].
Qed.

Lemma matches_chr (c : ascii) (s : string) :
  matches (Chr c) s <-> s = String c EmptyString.
Proof.
  split; [intros H; inversion H; reflexivity | intros ->; constructor].
Qed.

Lemma matches_cat (r1 r2 : regex) (s : string) :
  matches (Cat r1 r2) s <->
  exists s1 s2, s = s1 +:+ s2 /\ matches r1 s1 /\ matches r2 s2.
Proof.
  split.
  - intros H. inversion H; subst. eauto.
  - intros (s1 & s2 & -> & H1 & H2). constructor; assumption.
Qed.

(** The strings the default member pattern accepts. *)
Lemma default_member_shape (s : string) :
  re_match Config.DEFAULT_MEMBER_REGEX s = true <->
  exists a b c rest,
    s = a +:+ "-" +:+ b +:+ "-" +:+ c +:+ rest /\
    Py.is_numeral a = true /\ Py.is_numeral b = true /\
    Py.is_numeral c = true.
Proof.
  rewrite re_match_spec. unfold Config.DEFAULT_MEMBER_REGEX. split.
  - intros (p & q & -> & H).
    apply matches_cat in H as (a & p1 & -> & Ha & H).
    apply matches_cat in H as (h1 & p2 & -> & Hh1 & H).
    apply matches_cat in H as (b & p3 & -> & Hb & H).
    apply matches_cat in H as (h2 & c & -> & Hh2 & Hc).
    apply matches_chr in Hh1 as ->. apply matches_chr in Hh2 as ->.
    apply plus_digit_numeral in Ha, Hb, Hc.
    exists a, b, c, q. repeat split; auto.
    rewrite !append_assoc. reflexivity.
  - intros (a & b & c & rest & -> & Ha & Hb & Hc).
    apply plus_digit_numeral in Ha, Hb, Hc.
    exists (a +:+ "-" +:+ b +:+ "-" +:+ c), rest. split.
    + rewrite !append_assoc. reflexivity.
    + repeat (constructor; try assumption).
Qed.

(** X6: of the ASCII names, the default member pattern accepts exactly
    those that begin with three decimal numerals separated by two
    hyphens. *)
Theorem default_member_shape_ascii (s : string) :
  Py.isascii s = true ->
  (re_match Config.DEFAULT_MEMBER_REGEX s = true <->
   exists a b c rest,
     s = a +:+ "-" +:+ b +:+ "-" +:+ c +:+ rest /\
     Py.is_numeral a = true /\ Py.is_numeral b = true /\
     Py.is_numeral c = true).
Proof. intros _. apply default_member_shape. Qed.

Lemma default_member_shape_ascii_witness :
  exists a b c rest,
    "010010-99999-1901.gz" = a +:+ "-" +:+ b +:+ "-" +:+ c +:+ rest /\
    Py.is_numeral a = true /\ Py.is_numeral b = true /\
    Py.is_numeral c = true.
Proof.
  apply (default_member_shape_ascii "010010-99999-1901.gz");
    vm_compute; reflexivity.
Defined.

End ReFacts.

(** ** Config.normalize_years *)

Module ConfigFacts.

Import Py.

Example normalize_years_range :
  Config.normalize_years "1901-1903" = inr ["1901"; "1902"; "1903"].
Proof. vm_compute. reflexivity. Qed.

Example normalize_years_commas :
  Config.normalize_years "1902,1901" = inr ["1901"; "1902"].
Proof. vm_compute. reflexivity. Qed.

Example normalize_years_lexicographic :
  Config.normalize_years "9-11" = inr ["10"; "11"; "9"].
Proof. vm_compute. reflexivity. Qed.

Example member_three_groups :
  Re.re_match Config.DEFAULT_MEMBER_REGEX "010010-99999-1901" = true.
Proof. vm_compute. reflexivity. Qed.

Example member_two_groups :
  Re.re_match Config.DEFAULT_MEMBER_REGEX "010010-99999" = false.
Proof. vm_compute. reflexivity. Qed.

Lemma digit_not_sep (c : ascii) :
  Re.is_digit c = true ->
  Ascii.eqb c "," = false /\ Ascii.eqb c "-" = false /\
  Ascii.eqb c "+" = false /\ is_space c = false.
Proof.
  unfold Re.is_digit, is_space. intros H.
  repeat split.
  1-3: apply Ascii.eqb_neq; intros ->; vm_compute in H; discriminate.
  apply andb_prop in H as [H1 H2].
  apply Nat.leb_le in H1. apply Nat.leb_le in H2.
  cbv zeta. set (n := nat_of_ascii c) in *.
  destruct (n =? 32)%nat eqn:E1; [apply Nat.eqb_eq in E1; lia |].
  destruct (n <=? 13)%nat eqn:E2; [apply Nat.leb_le in E2; lia |].
  destruct (n =? 133)%nat eqn:E3; [apply Nat.eqb_eq in E3; lia |].
  destruct (n =? 160)%nat eqn:E4; [apply Nat.eqb_eq in E4; lia |].
  rewrite !andb_false_r. reflexivity.
Qed.

Lemma contains_append (c : ascii) (s t : string) :
  contains c (s +:+ t) = contains c s || contains c t.
Proof.
  induction s as [|d s IH]; simpl; [reflexivity |].
  rewrite IH. apply orb_assoc.
Qed.

Lemma contains_digits (sep : ascii) (s : string) :
  (forall c, Re.is_digit c = true -> Ascii.eqb c sep = false) ->
  forallb Re.is_digit (list_ascii_of_string s) = true ->
  contains sep s = false.
Proof.
  intros Hsep. induction s as [|d s IH]; simpl; [reflexivity |].
  intros H. apply andb_prop in H as [Hd Hs].
  rewrite (Hsep d Hd), (IH Hs). reflexivity.
Qed.

Lemma split_no_sep (sep : ascii) (s : string) :
  contains sep s = false -> split sep s = [s].
Proof.
  induction s as [|d s IH]; simpl; [reflexivity |].
  intros H. apply orb_false_elim in H as [Hd Hs].
  rewrite Hd, (IH Hs). reflexivity.
Qed.

Lemma split_append (sep : ascii) (s t : string) :
  contains sep s = false ->
  split sep (s +:+ String sep t) = s :: split sep t.
Proof.
  induction s as [|d s IH]; simpl.
  - intros _. rewrite Ascii.eqb_refl. reflexivity.
  - intros H. apply orb_false_elim in H as [Hd Hs].
    rewrite Hd, (IH Hs). reflexivity.
Qed.

Lemma rstrip_space_digits (s : string) :
  forallb Re.is_digit (list_ascii_of_string s) = true ->
  rstrip_space s = s.
Proof.
  induction s as [|d s IH]; simpl; [reflexivity |].
  intros H. apply andb_prop in H as [Hd Hs].
  rewrite (IH Hs). destruct s; [| reflexivity].
  destruct (digit_not_sep d Hd) as (_ & _ & _ & ->). reflexivity.
Qed.

Lemma int_digits_numeral (s : string) :
  forall acc b,
    forallb Re.is_digit (list_ascii_of_string s) = true ->
    int_digits acc b s =
      match s with
      | EmptyString => if b then Some acc else None
      | _ => Some (fold_left (fun a c => 10 * a + digit_value c)
                     (list_ascii_of_string s) acc)
      end.
Proof.
  induction s as [|d s IH]; intros acc b; simpl; [reflexivity |].
  intros H. apply andb_prop in H as [Hd Hs].
  rewrite Hd, (IH _ _ Hs). destruct s; reflexivity.
Qed.

Lemma count_digits_numeral (s : string) :
  forallb Re.is_digit (list_ascii_of_string s) = true ->
  count_digits s = String.length s.
Proof.
  induction s as [|d s IH]; simpl; [reflexivity |].
  intros H. apply andb_prop in H as [Hd Hs].
  rewrite Hd, (IH Hs). reflexivity.
Qed.

(** On a decimal numeral [int] is [int_literal]: there is no blank and no
    sign to take off. *)
Lemma int_numeral_literal (s : string) :
  is_numeral s = true -> int s = int_literal s.
Proof.
  destruct s as [|d s]; [discriminate |].
  unfold is_numeral. intros H. unfold int.
  rewrite (rstrip_space_digits _ H).
  pose proof H as H'. simpl in H'. apply andb_prop in H' as [Hd _].
  destruct (digit_not_sep d Hd) as (_ & Hm & Hp & Hsp).
  simpl lstrip_space. rewrite Hsp.
  destruct d as [[] [] [] [] [] [] [] []];
    try reflexivity; vm_compute in Hm, Hp; discriminate.
Qed.

(** On a decimal numeral that is not too long [int] gives the number it
    denotes. *)
Lemma int_numeral (s : string) :
  is_numeral s = true -> (String.length s <= MAX_STR_DIGITS)%nat ->
  int s = Some (numeral_value s).
Proof.
  intros H Hlen. rewrite (int_numeral_literal s H).
  destruct s as [|d s]; [discriminate |].
  unfold is_numeral in H. unfold int_literal.
  rewrite (count_digits_numeral _ H).
  destruct (Nat.ltb_spec MAX_STR_DIGITS (String.length (String d s)));
    [lia |].
  rewrite (int_digits_numeral _ _ _ H). reflexivity.
Qed.

(** On a longer one it raises. *)
Lemma int_numeral_long (s : string) :
  is_numeral s = true -> (MAX_STR_DIGITS < String.length s)%nat ->
  int s = None.
Proof.
  intros H Hlen. rewrite (int_numeral_literal s H).
  destruct s as [|d s]; [discriminate |].
  unfold is_numeral in H. unfold int_literal.
  rewrite (count_digits_numeral _ H).
  destruct (Nat.ltb_spec MAX_STR_DIGITS (String.length (String d s)));
    [reflexivity | lia].
Qed.

Lemma numeral_no_sep (sep : ascii) (s : string) :
  sep = ","%char \/ sep = "-"%char ->
  is_numeral s = true -> contains sep s = false.
Proof.
  intros Hsep H. apply contains_digits.
  - intros c Hc. destruct (digit_not_sep c Hc) as (H1 & H2 & _).
    destruct Hsep as [-> | ->]; assumption.
  - destruct s; [discriminate | exact H].
Qed.

Lemma sorted_is_sorted (l : list string) :
  StronglySorted String.le (sorted l) /\ sorted l ≡ₚ l.
Proof.
  split.
  - apply StronglySorted_merge_sort; apply _.
  - apply merge_sort_Permutation.
Qed.

(** C10 as stated fails on numerals that [int] refuses for their length:
    with [A] and [B] the numeral of 4301 ones, [A <= B] holds and
    [normalize_years] raises [ValueError] on [A-B]. *)
Lemma long_numeral_rejected :
  ~ (is_numeral Scenario.long_numeral = true ->
     numeral_value Scenario.long_numeral <= numeral_value Scenario.long_numeral ->
     exists years : list string,
       Config.normalize_years (Scenario.long_numeral +:+ "-" +:+ Scenario.long_numeral)
       = inr years).
Proof.
  intros H. destruct H as [years H].
  - vm_compute. reflexivity.
  - apply Z.le_refl.
  - revert H.
    assert (Config.normalize_years (Scenario.long_numeral +:+ "-" +:+ Scenario.long_numeral)
            = inl ValueError) as -> by (vm_compute; reflexivity).
    discriminate.
Qed.

(** C10: on [A-B], with [A] and [B] decimal numerals of at most 4300
    digits and [A <= B], [normalize_years] returns the sorted list of the
    decimal strings of the years [A], [A+1], ..., [B]; on an input
    without [-] it returns the sorted list of its comma-separated
    parts. *)
Theorem normalize_years_spec :
  (forall A B : string,
      is_numeral A = true -> is_numeral B = true ->
      (String.length A <= MAX_STR_DIGITS)%nat ->
      (String.length B <= MAX_STR_DIGITS)%nat ->
      numeral_value A <= numeral_value B ->
      let years :=
        map str (seqZ (numeral_value A)
                   (numeral_value B - numeral_value A + 1)) in
      Config.normalize_years (A +:+ "-" +:+ B) = inr (sorted years) /\
      StronglySorted String.le (sorted years) /\ sorted years ≡ₚ years) /\
  (forall inp : string,
      contains "-" inp = false ->
      let parts := split "," inp in
      Config.normalize_years inp = inr (sorted parts) /\
      StronglySorted String.le (sorted parts) /\ sorted parts ≡ₚ parts).
Proof.
  split.
  - intros A B HA HB HlA HlB Hle years. split; [| apply sorted_is_sorted].
    unfold Config.normalize_years.
    change (A +:+ "-" +:+ B) with (A +:+ String "-" B).
    rewrite !contains_append. simpl contains.
    rewrite (numeral_no_sep "," A), (numeral_no_sep "," B),
      (numeral_no_sep "-" A) by auto.
    simpl.
    rewrite split_append by (apply numeral_no_sep; auto).
    rewrite split_no_sep by (apply numeral_no_sep; auto).
    rewrite (int_numeral A HA HlA), (int_numeral B HB HlB).
    unfold range, years. repeat f_equal. lia.
  - intros inp Hno parts. split; [| apply sorted_is_sorted].
    unfold Config.normalize_years. rewrite Hno.
    destruct (contains "," inp) eqn:Hc; [reflexivity |].
    unfold parts. rewrite (split_no_sep "," inp Hc), (split_no_sep "-" inp Hno).
    reflexivity.
Qed.

Lemma normalize_years_spec_witness :
  Config.normalize_years "1901-1903" = inr ["1901"; "1902"; "1903"] /\
  Config.normalize_years "1902,1901" = inr ["1901"; "1902"].
Proof.
  split.
  - destruct normalize_years_spec as [Hrange _].
    destruct (Hrange "1901" "1903") as [H _];
      [reflexivity | reflexivity | vm_compute; lia | vm_compute; lia
      | vm_compute; discriminate |].
    exact H.
  - destruct normalize_years_spec as [_ Hparts].
    destruct (Hparts "1902,1901") as [H _]; [reflexivity |].
    exact H.
Defined.

End ConfigFacts.

(** ** Worker.run *)

Module WorkerFacts.

Import Os Worker Scenario.

Ltac run_monad :=
  unfold get, tar_open, logm, emit, put_done, is_file, raise;
  unfold mbind, M_bind, mret, M_ret; cbn.

Lemma bind_inr {A B : Type} (m : M A) (f : A -> M B) (w w' : World) (b : B) :
  (m ≫= f) w = (inr b, w') ->
  exists a w1, m w = (inr a, w1) /\ f a w1 = (inr b, w').
Proof.
  unfold mbind, M_bind. destruct (m w) as [[e | a] w1]; [discriminate |].
  intros H. exists a, w1. auto.
Qed.

Tactic Notation "bind_step" hyp(H) "as" ident(Hs) :=
  let a := fresh "a" in
  let w := fresh "w" in
  apply bind_inr in H as (a & w & Hs & H).

Lemma fs_op_inr (f : FS -> Exn + FS) (w w' : World) (u : unit) :
  fs_op f w = (inr u, w') -> exists fs', f (fs w) = inr fs' /\ w' = set_fs fs' w.
Proof.
  unfold fs_op. destruct (f (fs w)) as [e | fs']; [discriminate |].
  intros H. injection H as <-. eauto.
Qed.



Lemma aggregate_completed (tmp result : Path) (data : list string) :
  (forall n, join tmp n <> result) ->
  forall (w w' : World) (old : bytes) (u : unit),
    aggregate tmp result data w = (inr u, w') ->
    fs w result = Some (File old) ->
    exists chunks,
      Forall2 (fun n c => fs w (join tmp n) = Some (File c)) data chunks /\
      fs w' result = Some (File (old ++ concat chunks)) /\
      (forall q, q <> result -> fs w' q = fs w q) /\
      trace w' = trace w ++ map (EvWrite result) chunks /\
      queue_done w' = queue_done w.
Proof.
  intros Hapart.
  induction data as [|n data IH]; intros w w' old u Hrun Hold.
  - injection Hrun as _ <-. exists []. simpl.
    rewrite !app_nil_r. repeat split; auto.
  - simpl in Hrun.
    apply bind_inr in Hrun as (? & w1 & H1 & Hrun).
    unfold logm in H1. injection H1 as _ <-.
    apply bind_inr in Hrun as (c & w2 & H2 & Hrun).
    unfold read_file in H2. cbn in H2.
    destruct (read _ _) as [e | c'] eqn:Hread; [discriminate |].
    injection H2 as -> <-.
    apply bind_inr in Hrun as (? & w3 & H3 & Hrun).
    unfold emit in H3. injection H3 as _ <-. cbn in Hrun.
    apply bind_inr in Hrun as (? & w4 & H4 & Hrun).
    apply fs_op_inr in H4 as (fs4 & Hw & ->). cbn in Hw.
    unfold write in Hw. rewrite Hold in Hw. injection Hw as <-.
    apply (IH _ _ (old ++ c)) in Hrun
      as (chunks & Hall & Hres & Hother & Htr & Hq).
    2:{ cbn. unfold fs_set. destruct (decide (result = result)); congruence. }
    unfold read in Hread.
    destruct (fs w _) as [[c0|]|] eqn:Hn; try discriminate.
    injection Hread as ->.
    exists (c :: chunks). cbn in *. repeat split.
    + constructor; [exact Hn |].
      eapply Forall2_impl; [exact Hall |]. intros n' c' Hc'. cbn in Hc'.
      unfold fs_set in Hc'.
      destruct (decide _) as [E |]; [destruct (Hapart _ E) | exact Hc'].
    + rewrite Hres, <- app_assoc. reflexivity.
    + intros q Hq'. rewrite (Hother q Hq'). unfold fs_set.
      destruct (decide _); congruence.
    + rewrite Htr, <- app_assoc. reflexivity.
    + exact Hq.
Qed.


Lemma extract_frame (dest : Path) (m : Tar.TarInfo) (fs0 fs1 : FS) (q : Path) :
  Tar.extract dest m fs0 = inr fs1 -> q <> join dest (Tar.name m) ->
  fs1 q = fs0 q.
Proof.
  unfold Tar.extract. intros H Hq.
  destruct (Tar.kind m), (fs0 (join dest (Tar.name m))) as [[|]|];
    try discriminate; injection H as <-; try reflexivity; unfold fs_set;
    destruct (decide _); congruence.
Qed.


Lemma extractall_frame (dest : Path) (ms : list Tar.TarInfo) (q : Path) :
  forall fs0 fs1,
    Tar.extractall dest ms fs0 = inr fs1 ->
    (forall m, In m ms -> q <> join dest (Tar.name m)) ->
    fs1 q = fs0 q.
Proof.
  induction ms as [|m ms IH]; simpl; intros fs0 fs1 H Hq.
  - injection H as <-. reflexivity.
  - destruct (Tar.extract dest m fs0) as [e | fs'] eqn:E; [discriminate |].
    rewrite (IH _ _ H) by auto. eapply extract_frame; eauto.
Qed.

Lemma extractall_cwd (d : string) (parts : list string)
    (ms : list Tar.TarInfo) (fs0 fs1 : FS) (r : string) :
  Tar.extractall (Under d parts) ms fs0 = inr fs1 -> fs1 (Cwd r) = fs0 (Cwd r).
Proof.
  intros H. eapply extractall_frame; [exact H |]. intros m _. discriminate.
Qed.


Lemma process_completed (conf : Config.t) (net : Http.Net)
    (year filename : string) (w w' : World) :
  let url := Config.url conf +:+ filename in
  let result := result_path conf year in
  let tmp := tmp_path conf year in
  Http.success (Http.status_code (net url)) = true ->
  isfile (fs w) result && negb (Config.force conf) = false ->
  process conf net (year, filename) w = (inr tt, w') ->
  exists members chunks fs0 fs1,
    Http.raw (net url) = Some members /\
    Tar.extractall tmp members fs0 = inr fs1 /\
    (forall n, fs w' (join tmp n) = fs1 (join tmp n)) /\
    Forall2 (fun n c => fs1 (join tmp n) = Some (File c))
      (selected conf members) chunks /\
    fs w' result = Some (File (concat chunks)) /\
    trace w' =
      trace w ++ [EvGet url]
        ++ (if isfile (fs w) result then [EvRemove result] else [])
        ++ [EvMkdir tmp; EvReadBody url; EvExtractAll tmp; EvOpenAppend result]
        ++ map (EvWrite result) chunks /\
    queue_done w' = queue_done w ++ [year].
Proof.
  intros url result tmp Hok Hskip Hrun.
  unfold process in Hrun. fold url result tmp in Hrun.
  bind_step Hrun as H1. unfold logm in H1. injection H1 as _ <-.
  bind_step Hrun as H2. unfold get in H2.
  bind_step H2 as H3. unfold emit in H3. injection H3 as _ <-.
  injection H2 as <- <-. rewrite Hok in Hrun. cbn [negb] in Hrun.
  bind_step Hrun as H4. unfold is_file in H4. injection H4 as <- <-.
  cbn [fs] in Hrun. rewrite Hskip in Hrun.
  bind_step Hrun as H5. injection H5 as <- <-. cbn [fs] in Hrun.
  bind_step Hrun as Hrm. rename w0 into wr.
  assert (Hw0 : (forall d, fs wr result <> Some (File d)) /\
                trace wr = trace w ++ [EvGet url]
                  ++ (if isfile (fs w) result then [EvRemove result] else []) /\
                queue_done wr = queue_done w).
  { destruct (isfile (fs w) result) eqn:Hf.
    - destruct (Config.force conf); [| discriminate]. cbn [andb] in Hrm.
      bind_step Hrm as H6. unfold logm in H6. injection H6 as _ <-.
      bind_step Hrm as H7. unfold emit in H7. injection H7 as _ <-.
      apply fs_op_inr in Hrm as (fs' & Hrm & ->). cbn [fs] in Hrm.
      unfold remove in Hrm.
      destruct (fs w result) as [[d|]|]; try discriminate.
      injection Hrm as <-. cbn. unfold fs_set.
      destruct (decide (result = result)); [| congruence].
      rewrite <- app_assoc. repeat split; auto; discriminate.
    - cbn [andb] in Hrm. injection Hrm as _ <-. cbn.
      repeat split; auto.
      intros d Hd. unfold isfile in Hf. rewrite Hd in Hf. discriminate. }
  destruct Hw0 as (Hres0 & Htr0 & Hq0).
  bind_step Hrun as H8. unfold emit in H8. injection H8 as _ <-.
  bind_step Hrun as Hmk. apply fs_op_inr in Hmk as (fsA & Hmk & ->).
  cbn [fs] in Hmk.
  bind_step Hrun as H9. unfold logm in H9. injection H9 as _ <-.
  bind_step Hrun as Hopen. unfold tar_open in Hopen.
  bind_step Hopen as H10. unfold emit in H10. injection H10 as _ <-.
  destruct (Http.raw (net url)) as [members |] eqn:Hraw; [| discriminate].
  injection Hopen as <- <-.
  bind_step Hrun as H11. unfold emit in H11. injection H11 as _ <-.
  bind_step Hrun as Hex. apply fs_op_inr in Hex as (fs1 & Hex & ->).
  cbn [fs] in Hex.
  bind_step Hrun as H12. unfold emit in H12. injection H12 as _ <-.
  bind_step Hrun as Hop. apply fs_op_inr in Hop as (fs2 & Hop & ->).
  cbn [fs] in Hop.
  bind_step Hrun as Hagg. unfold put_done in Hrun. injection Hrun as <-.
  assert (HresA : fsA result = fs wr result).
  { unfold mkdir in Hmk. destruct (fs wr tmp) as [[|]|]; try discriminate;
      injection Hmk as <-; [reflexivity |].
    unfold fs_set.
    destruct (decide (result = tmp)) as [E |]; [discriminate E | reflexivity]. }
  assert (Hres1 : fs1 result = fs wr result).
  { rewrite <- HresA. apply (extractall_cwd _ _ _ _ _ _ Hex). }
  assert (Hfs2 : fs2 = fs_set result (Some (File [])) fs1).
  { unfold open_append in Hop. rewrite Hres1 in Hop.
    destruct (fs wr result) as [[d|]|] eqn:E; try discriminate.
    - destruct (Hres0 d). reflexivity.
    - injection Hop as <-. reflexivity. }
  subst fs2.
  assert (Hapart : forall n, join tmp n <> result) by (intros n; discriminate).
  apply (aggregate_completed _ _ _ Hapart _ _ []) in Hagg
    as (chunks & Hall & Hout & Hother & Htr & Hq).
  2:{ cbn. unfold fs_set. destruct (decide _); congruence. }
  cbn in Hall, Hother, Htr, Hq |- *.
  exists members, chunks, fsA, fs1.
  split; [reflexivity |]. split; [exact Hex |]. split; [| split; [| split]].
  - intros n. rewrite Hother by apply Hapart. unfold fs_set.
    destruct (decide _) as [E |]; [destruct (Hapart _ E) | reflexivity].
  - eapply Forall2_impl; [exact Hall |]. intros n c. unfold fs_set.
    destruct (decide _) as [E |]; [discriminate E | auto].
  - exact Hout.
  - split.
    + rewrite Htr, Htr0. rewrite <- !app_assoc. reflexivity.
    + rewrite Hq, Hq0. reflexivity.
Qed.




(** C1: a job whose archive GET answers a status outside 200..299 is
    finished at once: the worker puts the year on [queue_done] once,
    touches no file, reads no body, extracts nothing, and the loop goes
    on to the next job without raising. *)
Theorem failed_fetch_marks_done (conf : Config.t) (net : Http.Net)
    (year filename : string) (rest : list (string * string)) (w : World) :
  Http.success (Http.status_code (net (Config.url conf +:+ filename)))
    = false ->
  run_once conf net ((year, filename) :: rest) w =
    (inr rest,
     mkWorld (fs w) (queue_done w ++ [year])
       (log w ++ [(INFO, Fetching (Config.url conf +:+ filename));
                  (WARNING, CannotDownload filename)])
       (trace w ++ [EvGet (Config.url conf +:+ filename)])).
Proof.
  intros H. unfold run_once, process. run_monad. rewrite H. cbn.
  rewrite <- app_assoc. reflexivity.
Qed.

Lemma failed_fetch_marks_done_witness :
  run_once conf_1901 (serve 500 archive_A3) [job_1901] fresh =
    (inr [],
     mkWorld no_files ["1901"]
       [(INFO, Fetching (Config.DEFAULT_URL +:+ filename_1901));
        (WARNING, CannotDownload filename_1901)]
       [EvGet (Config.DEFAULT_URL +:+ filename_1901)]).
Proof.
  apply (failed_fetch_marks_done conf_1901 (serve 500 archive_A3)
           "1901" filename_1901 [] fresh).
  reflexivity.
Defined.

(** C4 as stated fails where the output path exists without being a
    regular file: with a directory at [./1901] and [force] off, the
    worker reads the body and extracts the archive, and then raises on
    opening the output, so that no signal is put. *)
Lemma directory_output_not_skipped :
  ~ (exists_ (fs with_dir) out_1901 = true ->
     Config.force conf_1901 = false ->
     forall (r : Exn + unit) (w' : World),
       process conf_1901 (serve 200 archive_A3) job_1901 with_dir = (r, w') ->
       queue_done w' = queue_done with_dir ++ ["1901"] /\
       ~ In (EvReadBody (Config.url conf_1901 +:+ filename_1901)) (trace w') /\
       ~ In (EvExtractAll (tmp_path conf_1901 "1901")) (trace w')).
Proof.
  intros H.
  destruct (H eq_refl eq_refl _ _ eq_refl) as [Hq _].
  vm_compute in Hq. discriminate.
Qed.

Example directory_output_run :
  let url := Config.url conf_1901 +:+ filename_1901 in
  let tmp := tmp_path conf_1901 "1901" in
  let r := process conf_1901 (serve 200 archive_A3) job_1901 with_dir in
  fst r = inl IsADirectoryError /\
  queue_done (snd r) = [] /\
  trace (snd r) =
    [EvGet url; EvMkdir tmp; EvReadBody url; EvExtractAll tmp;
     EvOpenAppend out_1901].
Proof. vm_compute. repeat split; reflexivity. Qed.

(** C4, amended: when the output path holds a regular file and [force]
    is off, the worker puts the year on [queue_done] once and does
    nothing else after it has issued its GET: no response body is read,
    nothing is extracted, no file or directory changes. *)
Theorem existing_output_skipped (conf : Config.t) (net : Http.Net)
    (year filename : string) (w : World) :
  Config.force conf = false ->
  isfile (fs w) (result_path conf year) = true ->
  exists w',
    process conf net (year, filename) w = (inr tt, w') /\
    queue_done w' = queue_done w ++ [year] /\
    fs w' = fs w /\
    trace w' = trace w ++ [EvGet (Config.url conf +:+ filename)].
Proof.
  intros Hf He. unfold process. run_monad.
  destruct (Http.success _); cbn.
  - rewrite He, Hf. cbn. eexists. split; [reflexivity |]. cbn. auto.
  - eexists. split; [reflexivity |]. cbn. auto.
Qed.

Lemma existing_output_skipped_witness :
  exists w',
    process conf_1901 (serve 200 archive_A3) job_1901 with_stale
      = (inr tt, w') /\
    queue_done w' = ["1901"] /\
    fs w' = fs with_stale /\
    trace w' = [EvGet (Config.DEFAULT_URL +:+ filename_1901)].
Proof.
  apply (existing_output_skipped conf_1901 (serve 200 archive_A3)
           "1901" filename_1901 with_stale); reflexivity.
Defined.


Example duplicate_names_outputs :
  aggregated archive_dup = [[x62]; [x62]] /\
  aggregated (rev archive_dup) = [[x61]; [x61]].
Proof. vm_compute. split; reflexivity. Qed.



(** The two station files of [archive_two] come out in listing order,
    and in the other order when the archive lists them the other way. *)
Example two_members_in_order :
  aggregated archive_two = [station; station_2] /\
  aggregated (rev archive_two) = [station_2; station].
Proof. vm_compute. split; reflexivity. Qed.




Example force_replaces_output_1901 :
  fs (snd (process conf_force (serve 200 archive_A3) job_1901 with_stale))
    out_1901
  = Some (File station).
Proof. vm_compute. reflexivity. Qed.

(** C8 as stated fails: the default pattern does not select
    [010010-99999], and the output of that scenario is not the bytes of
    that member. *)
Lemma scenario_A_two_groups_not_selected :
  ~ (Re.re_match Config.DEFAULT_MEMBER_REGEX "010010-99999" = true /\
     Re.re_match Config.DEFAULT_MEMBER_REGEX "README.txt" = false /\
     fs (snd (process conf_1901 (serve 200 archive_A)
                ("1901", filename_1901) fresh)) (Cwd "./1901")
     = Some (File station)).
Proof. intros (H & _). vm_compute in H. discriminate. Qed.

(** C8, amended: the default pattern selects [010010-99999-1901] and
    selects neither [010010-99999] nor [README.txt]; for year 1901 and an
    archive of [010010-99999-1901] and [README.txt] the output [./1901]
    holds exactly the bytes of the former; for an archive of
    [010010-99999] and [README.txt] the output is created empty. *)
Theorem default_pattern_wants_three_groups :
  Re.re_match Config.DEFAULT_MEMBER_REGEX "010010-99999-1901" = true /\
  Re.re_match Config.DEFAULT_MEMBER_REGEX "010010-99999" = false /\
  Re.re_match Config.DEFAULT_MEMBER_REGEX "README.txt" = false /\
  forall station readme : bytes,
    let job members :=
      process conf_1901 (serve 200 members) ("1901", filename_1901) fresh in
    let three :=
      job [Tar.mk "010010-99999-1901" (Tar.RegFile station);
           Tar.mk "README.txt" (Tar.RegFile readme)] in
    let two :=
      job [Tar.mk "010010-99999" (Tar.RegFile station);
           Tar.mk "README.txt" (Tar.RegFile readme)] in
    (fst three = inr tt /\
     fs (snd three) (Cwd "./1901") = Some (File station) /\
     queue_done (snd three) = ["1901"]) /\
    (fst two = inr tt /\
     fs (snd two) (Cwd "./1901") = Some (File []) /\
     queue_done (snd two) = ["1901"]).
Proof.
  repeat split; vm_compute; reflexivity.
Qed.

End WorkerFacts.

(** ** Master.start *)

Module MasterFacts.

Import Master Scenario.

#[local] Set Warnings "-clear-no-such-hyp".

Lemma drain_difference (signals : list string) :
  forall pending : gset string,
    drain pending signals = pending ∖ list_to_set signals.
Proof.
  unfold drain, discard.
  induction signals as [|y l IH]; intros pending; simpl.
  - set_solver.
  - rewrite IH. set_solver.
Qed.

Lemma removals_elem (signals : list string) :
  forall (pending : gset string) (y : string),
    y ∈ removals pending signals <-> y ∈ pending /\ y ∈ signals.
Proof.
  induction signals as [|x l IH]; intros pending y; simpl.
  - set_solver.
  - rewrite elem_of_app, IH. unfold discard.
    rewrite elem_of_difference, elem_of_singleton, (elem_of_cons l).
    destruct (decide (x ∈ pending)) as [Hx | Hx].
    + rewrite list_elem_of_singleton.
      destruct (decide (y = x)) as [-> | Hne]; tauto.
    + rewrite elem_of_nil.
      destruct (decide (y = x)) as [-> | Hne]; tauto.
Qed.

Lemma removals_NoDup (signals : list string) :
  forall pending : gset string, NoDup (removals pending signals).
Proof.
  induction signals as [|x l IH]; intros pending; simpl.
  - constructor.
  - destruct (decide (x ∈ pending)); simpl; [| apply IH].
    constructor; [| apply IH].
    rewrite removals_elem. unfold discard. set_solver.
Qed.

(** C2: over any sequence of drained signals a year leaves the pending set
    at most once; discarding a year that is not in the set, as a repeated
    signal does, leaves the set as it is. *)
Theorem discard_idempotent (pending : gset string) (signals : list string) :
    NoDup (removals pending signals) /\
    (forall year,
        year ∈ removals pending signals <-> year ∈ pending /\ year ∈ signals) /\
    drain pending signals = pending ∖ list_to_set (removals pending signals) /\
    (forall year, year ∉ pending -> discard year pending = pending) /\
    (forall year, discard year (discard year pending) = discard year pending) /\
    (forall year before after,
        drain pending (before ++ year :: year :: after)
        = drain pending (before ++ year :: after)).
Proof.
  split; [apply removals_NoDup |].
  split; [apply removals_elem |]. split; [| split; [| split]].
  - rewrite drain_difference. apply set_eq. intros y.
    rewrite !elem_of_difference, !elem_of_list_to_set, removals_elem. tauto.
  - intros year Hy. unfold discard. set_solver.
  - intros year. unfold discard. set_solver.
  - intros year before after. rewrite !drain_difference.
    rewrite !list_to_set_app_L. set_solver.
Qed.

Lemma discard_idempotent_witness :
  discard "1900" ({["1901"]} : gset string) = {["1901"]}.
Proof.
  destruct (discard_idempotent {["1901"]} ["1901"; "1901"])
    as (_ & _ & _ & H & _).
  apply H. apply (bool_decide_unpack _). vm_compute. exact I.
Defined.

(** C3, amended: in any iteration that finds the pending set non-empty and
    more than [run_time_max] elapsed since the loop started, [start] fails
    with [RuntimeError('There is some dangling work.')]: a fixed message
    that names no year, and nothing is logged or changed by that
    iteration. *)
Theorem deadline_raises (start : Z) (pending : gset string) (tick : Tick)
    (rest : list Tick) (m : t) :
  pending <> ∅ ->
  Config.run_time_max (conf m) < now tick - start ->
  poll start pending (tick :: rest) m
  = (Raised (RuntimeError "There is some dangling work."), m).
Proof.
  intros Hp Hlate. simpl. destruct (decide (pending = ∅)); [contradiction |].
  apply Z.ltb_lt in Hlate. rewrite Hlate. reflexivity.
Qed.

(** C3 as stated fails: the error raised with 1901 pending does not
    mention 1901 (and the iteration that raises logs nothing). *)
Lemma deadline_error_names_no_year :
  ~ (exists msg,
        fst (poll 0 {["1901"]} [tick_late] polling_1901)
          = Raised (RuntimeError msg) /\
        Py.str_in "1901" msg = true).
Proof.
  intros (msg & H & Hin). vm_compute in H. injection H as <-.
  vm_compute in Hin. discriminate.
Qed.

Lemma deadline_raises_witness :
  poll 0 {["1901"]} [tick_late] polling_1901
  = (Raised (RuntimeError "There is some dangling work."), polling_1901).
Proof.
  apply deadline_raises.
  - apply (bool_decide_unpack _). vm_compute. exact I.
  - reflexivity.
Defined.

Lemma spawn_from (j : nat) :
  forall k : nat,
    spawn (seq k j) (map Some (seq 0 k) ++ replicate j None)
    = inr (map Some (seq 0 (k + j))).
Proof.
  induction j as [|j IH]; intros k; simpl.
  - rewrite app_nil_r, Nat.add_0_r. reflexivity.
  - assert (Hlen : length (map Some (seq 0 k)) = k)
      by (rewrite length_map, length_seq; reflexivity).
    rewrite length_app, Hlen. simpl.
    assert ((k <? k + S (length (replicate j (@None nat))))%nat = true) as ->
      by (apply Nat.ltb_lt; lia).
    rewrite insert_app_r_alt by (rewrite Hlen; lia).
    rewrite Hlen, Nat.sub_diag. simpl.
    replace (map Some (seq 0 k) ++ Some k :: replicate j None)
      with (map Some (seq 0 (S k)) ++ replicate j None).
    + rewrite IH. replace (k + S j)%nat with (S k + j)%nat by lia. reflexivity.
    + rewrite seq_S, map_app, <- app_assoc. reflexivity.
Qed.

Lemma spawn_all (n : nat) :
  spawn (seq 0 n) (replicate n None) = inr (map Some (seq 0 n)).
Proof. apply (spawn_from n 0). Qed.

Lemma pending_of_intersection (years : list string) (index : gmap string string) :
  pending_of years index = list_to_set years ∩ dom index.
Proof.
  unfold pending_of. apply set_eq. intros y.
  rewrite elem_of_intersection, !elem_of_list_to_set, list_elem_of_filter,
    elem_of_dom. tauto.
Qed.

Lemma enqueue_all (index : gmap string string) (years : list string) :
  forall m : t,
    Forall (fun year => is_Some (index !! year)) years ->
    enqueue years index m
    = inr (mk (conf m) (workers m) (queue m ++ jobs_of index years) (log m)).
Proof.
  induction years as [|y years IH]; intros m Hall; simpl.
  - rewrite app_nil_r. destruct m; reflexivity.
  - apply Forall_cons in Hall as [[f Hf] Hall].
    unfold jobs_of. simpl. rewrite Hf. simpl.
    rewrite (IH _ Hall). simpl. rewrite <- app_assoc. reflexivity.
Qed.

Section StartFacts.

Variable findall : Re.regex -> string -> list string.

Lemma fetch_index_status (net : Http.Net) (c : Config.t) :
  let res := net (Config.url c) in
  let st := Http.status_code res in
  fetch_index findall net c =
    if (400 <=? st) && (st <? 600) then inl (HTTPError st)
    else build_index (findall (Config.index_regex c) (Http.text res)) ∅.
Proof.
  intros res st. unfold fetch_index, Http.raise_for_status, Http.success.
  fold res. fold st.
  destruct (400 <=? st) eqn:E1, (st <? 600) eqn:E2; simpl;
    destruct (200 <=? st) eqn:E3, (st <? 300) eqn:E4; simpl;
    try reflexivity; lia.
Qed.

Lemma start_aborts (net : Http.Net) (clock : Z) (ticks : list Tick) (m : t)
    (e : Exn) :
  fetch_index findall net (conf m) = inl e ->
  start findall net clock ticks m = (Raised e, m).
Proof. intros H. unfold start. rewrite H. reflexivity. Qed.

(** C6, amended: when no requested year is a key of the resolved index,
    [start] logs the warning that lists the requested years, all of them
    unavailable, next to the available archives, and then fails with
    [RuntimeError('There is nothing to do.')], a fixed message; by then
    every one of the [workers_count] workers has been started and the
    job queue is empty. *)
Theorem nothing_to_do (net : Http.Net) (clock : Z) (ticks : list Tick)
    (c : Config.t) (index : gmap string string) :
  fetch_index findall net c = inr index ->
  list_to_set (Config.years c) ∩ dom index = (∅ : gset string) ->
  start findall net clock ticks (init c) =
    (Raised (RuntimeError "There is nothing to do."),
     mk c (map Some (seq 0 (Z.to_nat (Config.workers_count c)))) []
       [(WARNING,
         CannotFetch (Config.years c) (map snd (map_to_list index)))]) /\
  Forall (fun year => index !! year = None) (Config.years c).
Proof.
  intros Hindex Hempty. split.
  - unfold start. cbn [conf init workers queue log]. rewrite Hindex.
    rewrite spawn_all, pending_of_intersection, Hempty.
    destruct (decide _) as [_ | Hne]; [reflexivity | contradiction].
  - apply Forall_forall. intros y Hy.
    destruct (index !! y) as [f |] eqn:E; [| reflexivity].
    assert (y ∈ (list_to_set (Config.years c) ∩ dom index : gset string)) as Hin.
    { rewrite elem_of_intersection, elem_of_list_to_set, elem_of_dom.
      split; [exact Hy | eauto]. }
    rewrite Hempty in Hin. apply elem_of_empty in Hin. destruct Hin.
Qed.

(** With a resolved index and a year to fetch, [start] starts every
    worker, queues one job per pending year and enters the loop. *)
Lemma start_polls (net : Http.Net) (clock : Z) (ticks : list Tick)
    (c : Config.t) (index : gmap string string) :
  fetch_index findall net c = inr index ->
  pending_of (Config.years c) index <> ∅ ->
  start findall net clock ticks (init c)
  = poll clock (pending_of (Config.years c) index) ticks
      (mk c (map Some (seq 0 (Z.to_nat (Config.workers_count c))))
         (jobs_of index (elements (pending_of (Config.years c) index))) []).
Proof.
  intros Hindex Hne. unfold start. cbn [conf init workers queue log].
  rewrite Hindex, spawn_all.
  destruct (decide _) as [He | _]; [contradiction |].
  rewrite enqueue_all; [reflexivity |].
  apply Forall_forall. intros y Hy. apply elem_of_elements in Hy.
  rewrite pending_of_intersection in Hy.
  apply elem_of_intersection in Hy as [_ Hy]. apply elem_of_dom in Hy.
  exact Hy.
Qed.

(** A client or server error status of the index GET stops [start]
    before anything is started or queued. *)
Lemma start_rejects_error_status (net : Http.Net) (clock : Z)
    (ticks : list Tick) (m : t) :
  let st := Http.status_code (net (Config.url (conf m))) in
  400 <= st < 600 ->
  start findall net clock ticks m = (Raised (HTTPError st), m).
Proof.
  intros st Hst. apply start_aborts. rewrite fetch_index_status.
  fold st. destruct (Z.leb_spec 400 st), (Z.ltb_spec st 600);
    try lia. reflexivity.
Qed.

End StartFacts.

Lemma nothing_to_do_witness :
  start finds_1901 (serve_text 200 listing_1901) 0 [] (init conf_1902) =
    (Raised (RuntimeError "There is nothing to do."),
     mk conf_1902 [Some 0%nat; Some 1%nat] []
       [(WARNING, CannotFetch ["1902"] [filename_1901])]) /\
  Forall (fun year => ({[ "1901" := filename_1901 ]} : gmap string string) !! year = None) ["1902"].
Proof.
  assert (H1 : fetch_index finds_1901 (serve_text 200 listing_1901) conf_1902
               = inr {[ "1901" := filename_1901 ]})
    by (vm_compute; reflexivity).
  assert (H2 : list_to_set (Config.years conf_1902)
                 ∩ dom ({[ "1901" := filename_1901 ]} : gmap string string)
               = (∅ : gset string))
    by (vm_compute; reflexivity).
  pose proof (nothing_to_do finds_1901 (serve_text 200 listing_1901) 0 []
                conf_1902 {[ "1901" := filename_1901 ]} H1 H2) as H.
  vm_compute in H. vm_compute. exact H.
Defined.

(** C6 as stated fails: the error raised when 1902 is requested and only
    1901 is listed does not mention 1902. *)
Lemma nothing_to_do_error_lists_no_year :
  ~ (exists msg,
        fst (start finds_1901 (serve_text 200 listing_1901) 0 []
               (init conf_1902))
          = Raised (RuntimeError msg) /\
        Py.str_in "1902" msg = true).
Proof.
  intros (msg & H & Hin). vm_compute in H. injection H as <-.
  vm_compute in Hin. discriminate.
Qed.

Example deadline_in_first_iteration :
  start finds_1901 (serve_text 200 listing_1901) 0 [tick_late]
    (init conf_1901)
  = (Raised (RuntimeError "There is some dangling work."),
     mk conf_1901 [Some 0%nat; Some 1%nat] [job_1901] []).
Proof. vm_compute. reflexivity. Qed.

Example index_status_500_rejected :
  start finds_1901 (serve_text 500 listing_1901) 0 [] (init conf_1901)
  = (Raised (HTTPError 500), init conf_1901).
Proof. vm_compute. reflexivity. Qed.

(** C5 fails on the code: an index GET that answers 300 or 304 is not
    rejected.  With 300 and a body that lists the archive of 1901, [start]
    builds the index from the body, starts the workers and queues the job
    of 1901; with 304 and an empty body it starts the workers and then
    fails for want of work, not for the status. *)
Theorem index_redirect_status_not_rejected :
  let listed :=
    start finds_1901 (serve_text 300 listing_1901) 0 [] (init conf_1901) in
  let empty :=
    start finds_1901 (serve_text 304 EmptyString) 0 [] (init conf_1901) in
  (fst listed = Polling {["1901"]} /\
   queue (snd listed) = [job_1901] /\
   workers (snd listed) = [Some 0%nat; Some 1%nat]) /\
  (fst empty = Raised (RuntimeError "There is nothing to do.") /\
   queue (snd empty) = [] /\
   workers (snd empty) = [Some 0%nat; Some 1%nat]).
Proof. vm_compute. repeat split; reflexivity. Qed.

End MasterFacts.

(** ** More on Config *)

Module ConfigMore.

Import Py ConfigFacts.

Lemma rstrip_slashes (k : nat) : rstrip "/" (Text.slashes k) = EmptyString.
Proof.
  induction k as [|k IH]; simpl; [reflexivity |]. rewrite IH. reflexivity.
Qed.

Lemma last_char_cons (d : ascii) (t : string) :
  t <> EmptyString -> Text.last_char (String d t) = Text.last_char t.
Proof. destruct t; [congruence | reflexivity]. Qed.

Lemma rstrip_split (s : string) :
  exists k,
    s = rstrip "/" s +:+ Text.slashes k /\
    Text.last_char (rstrip "/" s) <> Some "/"%char.
Proof.
  induction s as [|d s (k & Hs & Hlast)].
  - exists 0%nat. split; [reflexivity | discriminate].
  - simpl. destruct (rstrip "/" s) as [|e t] eqn:E.
    + destruct (Ascii.eqb_spec d "/") as [-> | Hd].
      * exists (S k). split; [| discriminate].
        change (String "/" s = String "/" (EmptyString +:+ Text.slashes k)).
        f_equal. exact Hs.
      * exists k. split.
        -- change (String d s = String d (EmptyString +:+ Text.slashes k)).
           f_equal. exact Hs.
        -- simpl. congruence.
    + exists k. split.
      * change (String d s = String d (String e t +:+ Text.slashes k)).
        f_equal. exact Hs.
      * rewrite last_char_cons by discriminate. exact Hlast.
Qed.

Lemma rstrip_stem (stem : string) (k : nat) :
  Text.last_char stem <> Some "/"%char ->
  rstrip "/" (stem +:+ Text.slashes k) = stem.
Proof.
  induction stem as [|d t IH]; intros Hlast.
  - apply rstrip_slashes.
  - change (String d t +:+ Text.slashes k) with (String d (t +:+ Text.slashes k)).
    simpl. destruct t as [|e t'].
    + change (EmptyString +:+ Text.slashes k) with (Text.slashes k).
      rewrite rstrip_slashes.
      destruct (Ascii.eqb_spec d "/") as [-> | _]; [| reflexivity].
      destruct Hlast. reflexivity.
    + rewrite IH; [reflexivity |].
      rewrite last_char_cons in Hlast by discriminate. exact Hlast.
Qed.

(** X1: [normalize_url] is idempotent, and its result is the input with
    all its trailing slashes replaced by exactly one. *)
Theorem normalize_url_one_slash (inp : string) :
  Config.normalize_url (Config.normalize_url inp) = Config.normalize_url inp /\
  exists stem k,
    inp = stem +:+ Text.slashes k /\
    Config.normalize_url inp = stem +:+ "/" /\
    Text.last_char stem <> Some "/"%char.
Proof.
  destruct (rstrip_split inp) as (k & Hs & Hlast).
  unfold Config.normalize_url. split.
  - change (rstrip "/" inp +:+ "/")
      with (rstrip "/" inp +:+ Text.slashes 1) at 1.
    rewrite (rstrip_stem _ 1 Hlast). reflexivity.
  - exists (rstrip "/" inp), k. auto.
Qed.

Lemma split_two (sep : ascii) (s : string) :
  contains sep s = true -> exists a b rest, split sep s = a :: b :: rest.
Proof.
  induction s as [|d s IH]; simpl; [discriminate |].
  destruct (Ascii.eqb d sep) eqn:E; simpl.
  - intros _. destruct (split sep s) as [|h t] eqn:Hs.
    + destruct s; simpl in Hs; [discriminate |].
      destruct (Ascii.eqb _ _); [discriminate |].
      destruct (split sep s); discriminate.
    + eauto.
  - intros H. destruct (IH H) as (a & b & rest & ->). eauto.
Qed.

(** X2: [normalize_years] returns a list or raises [ValueError]; the
    indexing of [years[0]] and [years[1]] never fails. *)
Theorem normalize_years_only_value_error (inp : string) :
  (exists years, Config.normalize_years inp = inr years) \/
  Config.normalize_years inp = inl ValueError.
Proof.
  unfold Config.normalize_years.
  destruct (contains "-" inp) eqn:Hh; [| eauto].
  destruct (contains "," inp) eqn:Hc.
  - destruct (split_two _ _ Hc) as (a & b & rest & ->).
    destruct (int a); [destruct (int b) |]; eauto.
  - destruct (split_two _ _ Hh) as (a & b & rest & ->).
    destruct (int a); [destruct (int b) |]; eauto.
Qed.

(** On [A-B] the two numerals are what [int] is given. *)
Lemma normalize_years_hyphen (A B : string) :
  is_numeral A = true -> is_numeral B = true ->
  Config.normalize_years (A +:+ "-" +:+ B) =
    match int A with
    | None => inl ValueError
    | Some a =>
        match int B with
        | None => inl ValueError
        | Some b => inr (sorted (map str (range a (b + 1))))
        end
    end.
Proof.
  intros HA HB. unfold Config.normalize_years.
  change (A +:+ "-" +:+ B) with (A +:+ String "-" B).
  rewrite !contains_append. simpl contains.
  rewrite (numeral_no_sep "," A), (numeral_no_sep "," B),
    (numeral_no_sep "-" A) by auto.
  simpl.
  rewrite split_append by (apply numeral_no_sep; auto).
  rewrite split_no_sep by (apply numeral_no_sep; auto).
  reflexivity.
Qed.

(** X3: a range whose end is below its start gives the empty list, not an
    error; the two numerals have at most 4300 digits each. *)
Theorem normalize_years_descending (A B : string) :
  is_numeral A = true -> is_numeral B = true ->
  (String.length A <= MAX_STR_DIGITS)%nat ->
  (String.length B <= MAX_STR_DIGITS)%nat ->
  numeral_value B < numeral_value A ->
  Config.normalize_years (A +:+ "-" +:+ B) = inr [].
Proof.
  intros HA HB HlA HlB Hlt.
  rewrite (normalize_years_hyphen A B) by assumption.
  rewrite (int_numeral A HA HlA), (int_numeral B HB HlB).
  unfold range. rewrite seqZ_nil by lia. reflexivity.
Qed.

Lemma normalize_years_descending_witness :
  Config.normalize_years "1905-1901" = inr [].
Proof.
  apply (normalize_years_descending "1905" "1901");
    [reflexivity | reflexivity | vm_compute; lia | vm_compute; lia
    | vm_compute; reflexivity].
Defined.

(** X4: what follows a second hyphen is ignored: [A-B-rest] gives the
    years of [A-B]. *)
Theorem normalize_years_third_part_ignored (A B rest : string) :
  is_numeral A = true -> is_numeral B = true ->
  contains "," rest = false ->
  Config.normalize_years (A +:+ "-" +:+ B +:+ "-" +:+ rest)
  = Config.normalize_years (A +:+ "-" +:+ B).
Proof.
  intros HA HB Hrest.
  rewrite (normalize_years_hyphen A B) by assumption.
  unfold Config.normalize_years.
  change (A +:+ "-" +:+ B +:+ "-" +:+ rest)
    with (A +:+ String "-" (B +:+ String "-" rest)).
  rewrite !contains_append. simpl contains. rewrite !contains_append.
  simpl contains.
  rewrite (numeral_no_sep "," A), (numeral_no_sep "," B),
    (numeral_no_sep "-" A), Hrest by auto.
  simpl.
  rewrite split_append by (apply numeral_no_sep; auto).
  rewrite split_append by (apply numeral_no_sep; auto).
  reflexivity.
Qed.

Lemma normalize_years_third_part_ignored_witness :
  Config.normalize_years "1901-1903-1950"
  = Config.normalize_years "1901-1903".
Proof.
  apply (normalize_years_third_part_ignored "1901" "1903" "1950");
    reflexivity.
Defined.

Lemma last_char_append (s : string) (c : ascii) (t : string) :
  Text.last_char (s +:+ String c t) = Text.last_char (String c t).
Proof.
  induction s as [|d s IH]; [reflexivity |].
  change (String d s +:+ String c t) with (String d (s +:+ String c t)).
  rewrite last_char_cons; [exact IH |]. destruct s; discriminate.
Qed.

Lemma rstrip_space_last (s : string) :
  (forall c, Text.last_char s = Some c -> is_space c = false) ->
  rstrip_space s = s.
Proof.
  induction s as [|d s IH]; intros Hlast; [reflexivity |].
  simpl. destruct s as [|e s'].
  - simpl. rewrite (Hlast d eq_refl). reflexivity.
  - rewrite IH; [reflexivity |]. intros c Hc. apply Hlast.
    rewrite last_char_cons by discriminate. exact Hc.
Qed.

Lemma last_char_numeral (s : string) (c : ascii) :
  is_numeral s = true -> Text.last_char s = Some c -> Re.is_digit c = true.
Proof.
  destruct s as [|d s]; [discriminate |]. unfold is_numeral.
  revert d. induction s as [|e s IH]; intros d H Hlast.
  - simpl in *. injection Hlast as <-.
    apply andb_prop in H as [H _]. exact H.
  - rewrite last_char_cons in Hlast by discriminate.
    simpl in H. apply andb_prop in H as [_ H]. apply (IH e); assumption.
Qed.

Lemma int_digits_stop (s : string) (c : ascii) (t : string) :
  forall acc b,
    forallb Re.is_digit (list_ascii_of_string s) = true ->
    Re.is_digit c = false -> Ascii.eqb c "_" = false ->
    int_digits acc b (s +:+ String c t) = None.
Proof.
  induction s as [|d s IH]; intros acc b Hs Hc Hu.
  - simpl. rewrite Hc, Hu. reflexivity.
  - change (String d s +:+ String c t) with (String d (s +:+ String c t)).
    simpl in Hs |- *. apply andb_prop in Hs as [Hd Hs].
    rewrite Hd. apply IH; assumption.
Qed.

Lemma int_range_text (B C : string) :
  is_numeral B = true -> is_numeral C = true ->
  int (B +:+ String "-" C) = None.
Proof.
  intros HB HC. unfold int.
  rewrite rstrip_space_last.
  2:{ intros c Hc. rewrite last_char_append in Hc.
      destruct C as [|c0 C']; [discriminate |].
      rewrite last_char_cons in Hc by discriminate.
      apply (last_char_numeral _ _ HC) in Hc.
      apply digit_not_sep in Hc. tauto. }
  destruct B as [|d B']; [discriminate |].
  assert (Hd : Re.is_digit d = true).
  { simpl in HB. apply andb_prop in HB as [H _]. exact H. }
  destruct (digit_not_sep d Hd) as (_ & Hm & Hp & Hsp).
  change (String d B' +:+ String "-" C)
    with (String d (B' +:+ String "-" C)).
  simpl lstrip_space. rewrite Hsp.
  assert (Hint : int_literal (String d (B' +:+ String "-" C)) = None).
  { unfold int_literal. destruct (_ <? _)%nat; [reflexivity |].
    change (String d (B' +:+ String "-" C))
      with (String d B' +:+ String "-" C).
    apply int_digits_stop; [exact HB | reflexivity | reflexivity]. }
  destruct d as [[] [] [] [] [] [] [] []];
    try exact Hint; vm_compute in Hm, Hp; discriminate.
Qed.

(** X5: a comma-separated list that holds a range, [A,B-C] or [A-B,C],
    raises [ValueError]. *)
Theorem normalize_years_mixed_rejected (A B C : string) :
  is_numeral A = true -> is_numeral B = true -> is_numeral C = true ->
  Config.normalize_years (A +:+ "," +:+ B +:+ "-" +:+ C) = inl ValueError /\
  Config.normalize_years (A +:+ "-" +:+ B +:+ "," +:+ C) = inl ValueError.
Proof.
  intros HA HB HC. unfold Config.normalize_years. split.
  - change (A +:+ "," +:+ B +:+ "-" +:+ C)
      with (A +:+ String "," (B +:+ String "-" C)).
    rewrite !contains_append. simpl contains. rewrite !contains_append.
    simpl contains. rewrite !orb_true_r. simpl.
    rewrite split_append by (apply numeral_no_sep; auto).
    rewrite split_no_sep.
    2:{ rewrite contains_append. simpl.
        rewrite (numeral_no_sep "," B), (numeral_no_sep "," C) by auto.
        reflexivity. }
    rewrite int_range_text by assumption.
    destruct (int A); reflexivity.
  - change (A +:+ "-" +:+ B +:+ "," +:+ C)
      with (A +:+ (String "-" B) +:+ String "," C).
    rewrite <- ReFacts.append_assoc.
    repeat (rewrite contains_append; simpl contains).
    rewrite !orb_true_r. simpl.
    rewrite split_append.
    2:{ rewrite contains_append. simpl.
        rewrite (numeral_no_sep "," A), (numeral_no_sep "," B) by auto.
        reflexivity. }
    rewrite split_no_sep by (apply numeral_no_sep; auto).
    change (A +:+ String "-" B) with (A +:+ String "-" B).
    rewrite int_range_text by assumption. reflexivity.
Qed.

Lemma normalize_years_mixed_rejected_witness :
  Config.normalize_years "1901,1903-1905" = inl ValueError /\
  Config.normalize_years "1901-1903,1905" = inl ValueError.
Proof.
  apply (normalize_years_mixed_rejected "1901" "1903" "1905"); reflexivity.
Defined.

End ConfigMore.

(** ** More on Worker.run *)

Module WorkerMore.

Import Os Worker Effects WorkerFacts.

Lemma keeps_ret {A : Type} (x : A) : keeps_done (mret x).
Proof. intros w r w' H. injection H as _ <-. reflexivity. Qed.

Lemma keeps_raise {A : Type} (e : Exn) : keeps_done (@raise A e).
Proof. intros w r w' H. injection H as _ <-. reflexivity. Qed.

Lemma keeps_bind {A B : Type} (m : M A) (k : A -> M B) :
  keeps_done m -> (forall a, keeps_done (k a)) -> keeps_done (m ≫= k).
Proof.
  intros Hm Hk w r w' H. unfold mbind, M_bind in H.
  destruct (m w) as [[e | a] w1] eqn:E.
  - injection H as _ <-. eapply Hm; eauto.
  - rewrite (Hk a _ _ _ H). eapply Hm; eauto.
Qed.

Lemma keeps_logm (lvl : Level) (rec : LogRecord) : keeps_done (logm lvl rec).
Proof. intros w r w' H. injection H as _ <-. reflexivity. Qed.

Lemma keeps_emit (ev : Event) : keeps_done (emit ev).
Proof. intros w r w' H. injection H as _ <-. reflexivity. Qed.

Lemma keeps_fs_op (f : FS -> Exn + FS) : keeps_done (fs_op f).
Proof.
  intros w r w' H. unfold fs_op in H.
  destruct (f (fs w)); injection H as _ <-; reflexivity.
Qed.

Lemma keeps_is_file (p : Path) : keeps_done (is_file p).
Proof. intros w r w' H. injection H as _ <-. reflexivity. Qed.

Lemma keeps_read_file (p : Path) : keeps_done (read_file p).
Proof.
  intros w r w' H. unfold read_file in H.
  destruct (read p (fs w)); injection H as _ <-; reflexivity.
Qed.

Lemma keeps_get (net : Http.Net) (url : string) : keeps_done (get net url).
Proof.
  apply keeps_bind; [apply keeps_emit | intros; apply keeps_ret].
Qed.

Lemma keeps_tar_open (url : string) (res : Http.Response) :
  keeps_done (tar_open url res).
Proof.
  apply keeps_bind; [apply keeps_emit |]. intros _.
  destruct (Http.raw res); [apply keeps_ret | apply keeps_raise].
Qed.

Lemma keeps_aggregate (tmp result : Path) (data : list string) :
  keeps_done (aggregate tmp result data).
Proof.
  induction data as [|n data IH]; simpl; [apply keeps_ret |].
  apply keeps_bind; [apply keeps_logm |]. intros _.
  apply keeps_bind; [apply keeps_read_file |]. intros d.
  apply keeps_bind; [apply keeps_emit |]. intros _.
  apply keeps_bind; [apply keeps_fs_op |]. intros _. exact IH.
Qed.

Lemma signals_put_done (year : string) : signals_once year (put_done year).
Proof. intros w r w' H. injection H as <- <-. reflexivity. Qed.

Lemma signals_bind {A B : Type} (year : string) (m : M A) (k : A -> M B) :
  keeps_done m -> (forall a, signals_once year (k a)) ->
  signals_once year (m ≫= k).
Proof.
  intros Hm Hk w r w' H. unfold mbind, M_bind in H.
  destruct (m w) as [[e | a] w1] eqn:E.
  - injection H as <- <-. simpl. rewrite app_nil_r. eapply Hm; eauto.
  - rewrite (Hk a _ _ _ H). f_equal. eapply Hm; eauto.
Qed.

Ltac keeps :=
  repeat first
    [ apply keeps_logm | apply keeps_emit | apply keeps_fs_op
    | apply keeps_is_file | apply keeps_read_file | apply keeps_get
    | apply keeps_tar_open | apply keeps_aggregate | apply keeps_ret
    | apply keeps_raise ].

Lemma process_signals_once (conf : Config.t) (net : Http.Net)
    (year filename : string) :
  signals_once year (process conf net (year, filename)).
Proof.
  unfold process.
  apply signals_bind; [keeps |]. intros _.
  apply signals_bind; [keeps |]. intros res.
  destruct (negb _).
  { apply signals_bind; [keeps |]. intros _. apply signals_put_done. }
  apply signals_bind; [keeps |]. intros present.
  destruct (present && negb _).
  { apply signals_bind; [keeps |]. intros _. apply signals_put_done. }
  apply signals_bind; [keeps |]. intros stale.
  apply signals_bind.
  { destruct (stale && _); [| keeps].
    apply keeps_bind; [keeps |]. intros _.
    apply keeps_bind; [keeps |]. intros _. keeps. }
  intros _.
  repeat (apply signals_bind; [keeps |]; intro).
  apply signals_put_done.
Qed.

(** X7: whatever path the job takes, the worker puts its year on
    [queue_done] exactly once when the body returns, and puts nothing
    when it raises. *)
Theorem signal_iff_returns (conf : Config.t) (net : Http.Net)
    (year filename : string) (w w' : World) (r : Exn + unit) :
  process conf net (year, filename) w = (r, w') ->
  queue_done w' = queue_done w ++ signalled r year.
Proof. apply process_signals_once. Qed.

Lemma signal_iff_returns_witness :
  queue_done
    (snd (process Scenario.conf_1901 (Scenario.serve_text 200 EmptyString)
            Scenario.job_1901 Scenario.fresh))
  = queue_done Scenario.fresh
      ++ signalled (@inl Exn unit ReadError) "1901".
Proof.
  apply (signal_iff_returns Scenario.conf_1901
           (Scenario.serve_text 200 EmptyString) "1901"
           Scenario.filename_1901 Scenario.fresh).
  vm_compute. reflexivity.
Defined.

(** *** Frame *)

Lemma touches_ret {A : Type} (P : Path -> Prop) (x : A) :
  touches_only P (mret x).
Proof. intros w r w' q H _. injection H as _ <-. reflexivity. Qed.

Lemma touches_raise {A : Type} (P : Path -> Prop) (e : Exn) :
  touches_only P (@raise A e).
Proof. intros w r w' q H _. injection H as _ <-. reflexivity. Qed.

Lemma touches_bind {A B : Type} (P : Path -> Prop) (m : M A) (k : A -> M B) :
  touches_only P m -> (forall a, touches_only P (k a)) ->
  touches_only P (m ≫= k).
Proof.
  intros Hm Hk w r w' q H Hq. unfold mbind, M_bind in H.
  destruct (m w) as [[e | a] w1] eqn:E.
  - injection H as _ <-. eapply Hm; eauto.
  - rewrite (Hk a _ _ _ _ H Hq). eapply Hm; eauto.
Qed.

Lemma touches_logm (P : Path -> Prop) (lvl : Level) (rec : LogRecord) :
  touches_only P (logm lvl rec).
Proof. intros w r w' q H _. injection H as _ <-. reflexivity. Qed.

Lemma touches_emit (P : Path -> Prop) (ev : Event) : touches_only P (emit ev).
Proof. intros w r w' q H _. injection H as _ <-. reflexivity. Qed.

Lemma touches_put_done (P : Path -> Prop) (year : string) :
  touches_only P (put_done year).
Proof. intros w r w' q H _. injection H as _ <-. reflexivity. Qed.

Lemma touches_is_file (P : Path -> Prop) (p : Path) :
  touches_only P (is_file p).
Proof. intros w r w' q H _. injection H as _ <-. reflexivity. Qed.

Lemma touches_read_file (P : Path -> Prop) (p : Path) :
  touches_only P (read_file p).
Proof.
  intros w r w' q H _. unfold read_file in H.
  destruct (read p (fs w)); injection H as _ <-; reflexivity.
Qed.

Lemma touches_fs_op (P : Path -> Prop) (f : FS -> Exn + FS) :
  (forall fs0 fs1 q, f fs0 = inr fs1 -> ~ P q -> fs1 q = fs0 q) ->
  touches_only P (fs_op f).
Proof.
  intros Hf w r w' q H Hq. unfold fs_op in H.
  destruct (f (fs w)) as [e | fs1] eqn:E; injection H as _ <-;
    [reflexivity |]. simpl. eapply Hf; eauto.
Qed.

Lemma fs_set_other (p q : Path) (n : option Node) (fs0 : FS) :
  q <> p -> fs_set p n fs0 q = fs0 q.
Proof. intros H. unfold fs_set. destruct (decide (q = p)); congruence. Qed.

Lemma touches_one (P : Path -> Prop) (p : Path) (f : Path -> FS -> Exn + FS) :
  P p ->
  (f = remove \/ f = mkdir \/ f = open_append \/ exists d, f = fun p => write p d) ->
  touches_only P (fs_op (f p)).
Proof.
  intros Hp Hf. apply touches_fs_op. intros fs0 fs1 q H Hq.
  assert (q <> p) as Hne by (intros ->; contradiction).
  destruct Hf as [-> | [-> | [-> | [d ->]]]];
    [unfold remove in H | unfold mkdir in H | unfold open_append in H
    | unfold write in H];
    destruct (fs0 p) as [[|]|]; try discriminate; injection H as <-;
    try reflexivity; apply fs_set_other; exact Hne.
Qed.

Lemma touches_get (P : Path -> Prop) (net : Http.Net) (url : string) :
  touches_only P (get net url).
Proof.
  apply touches_bind; [apply touches_emit | intros; apply touches_ret].
Qed.

Lemma touches_tar_open (P : Path -> Prop) (url : string)
    (res : Http.Response) :
  touches_only P (tar_open url res).
Proof.
  apply touches_bind; [apply touches_emit |]. intros _.
  destruct (Http.raw res); [apply touches_ret | apply touches_raise].
Qed.

Lemma touches_aggregate (P : Path -> Prop) (tmp result : Path)
    (data : list string) :
  P result -> touches_only P (aggregate tmp result data).
Proof.
  intros Hp. induction data as [|n data IH]; simpl; [apply touches_ret |].
  apply touches_bind; [apply touches_logm |]. intros _.
  apply touches_bind; [apply touches_read_file |]. intros d.
  apply touches_bind; [apply touches_emit |]. intros _.
  apply touches_bind; [| intros _; exact IH].
  apply (touches_one P result (fun p => write p d)); eauto 6.
Qed.

Lemma process_touches_own (conf : Config.t) (net : Http.Net)
    (year filename : string) :
  touches_only (own conf year) (process conf net (year, filename)).
Proof.
  assert (Hres : own conf year (result_path conf year)) by (left; reflexivity).
  assert (Htmp : own conf year (tmp_path conf year))
    by (right; left; reflexivity).
  unfold process.
  apply touches_bind; [apply touches_logm |]. intros _.
  apply touches_bind; [apply touches_get |]. intros res.
  destruct (negb _).
  { apply touches_bind; [apply touches_logm |]. intros _.
    apply touches_put_done. }
  apply touches_bind; [apply touches_is_file |]. intros present.
  destruct (present && negb _).
  { apply touches_bind; [apply touches_logm |]. intros _.
    apply touches_put_done. }
  apply touches_bind; [apply touches_is_file |]. intros stale.
  apply touches_bind.
  { destruct (stale && _); [| apply touches_ret].
    apply touches_bind; [apply touches_logm |]. intros _.
    apply touches_bind; [apply touches_emit |]. intros _.
    apply (touches_one _ _ remove); auto. }
  intros _.
  apply touches_bind; [apply touches_emit |]. intros _.
  apply touches_bind; [apply (touches_one _ _ mkdir); auto |]. intros _.
  apply touches_bind; [apply touches_logm |]. intros _.
  apply touches_bind; [apply touches_tar_open |]. intros members.
  apply touches_bind; [apply touches_emit |]. intros _.
  apply touches_bind.
  { apply touches_fs_op. intros fs0 fs1 q H Hq.
    eapply extractall_frame; [exact H |]. intros m _ ->.
    apply Hq. right. right. eauto. }
  intros _.
  apply touches_bind; [apply touches_emit |]. intros _.
  apply touches_bind; [apply (touches_one _ _ open_append); auto 6 |].
  intros _.
  apply touches_bind; [apply touches_aggregate; exact Hres |]. intros _.
  apply touches_put_done.
Qed.

Lemma list_ascii_append (s t : string) :
  list_ascii_of_string (s +:+ t)
  = list_ascii_of_string s ++ list_ascii_of_string t.
Proof.
  induction s as [|c s IH]; [reflexivity |].
  change (String c s +:+ t) with (String c (s +:+ t)). simpl.
  f_equal. exact IH.
Qed.

Lemma append_inv_tail (s t u : string) : s +:+ u = t +:+ u -> s = t.
Proof.
  intros H. apply (f_equal list_ascii_of_string) in H.
  rewrite !list_ascii_append in H. apply app_inv_tail in H.
  apply (f_equal string_of_list_ascii) in H.
  rewrite !string_of_list_ascii_of_string in H. exact H.
Qed.

Lemma result_path_inj (conf : Config.t) (y1 y2 : string) :
  result_path conf y1 = result_path conf y2 -> y1 = y2.
Proof.
  unfold result_path. destruct (Config.is_compress conf); intros H.
  - change ("./" +:+ ?y +:+ ".gz") with (String "." (String "/" (y +:+ ".gz"))) in H.
    injection H as H. apply append_inv_tail in H. exact H.
  - change ("./" +:+ ?y) with (String "." (String "/" y)) in H.
    injection H as H. exact H.
Qed.

Lemma other_year_not_own (conf : Config.t) (year year' : string) :
  year' <> year ->
  ~ own conf year (result_path conf year') /\
  ~ own conf year (tmp_path conf year') /\
  forall n, ~ own conf year (join (tmp_path conf year') n).
Proof.
  intros Hne. repeat split.
  - intros [H | [H | (n & H)]]; try discriminate H.
    apply result_path_inj in H. contradiction.
  - intros [H | [H | (n & H)]]; try discriminate H.
    injection H as H. contradiction.
  - intros n [H | [H | (n' & H)]]; try discriminate H.
    injection H as H _. contradiction.
Qed.

(** X8: whatever its outcome, a job leaves the output, the extraction
    directory and the extracted files of every other year as they were. *)
Theorem other_years_untouched (conf : Config.t) (net : Http.Net)
    (year filename year' : string) (w w' : World) (r : Exn + unit) :
  process conf net (year, filename) w = (r, w') ->
  year' <> year ->
  fs w' (result_path conf year') = fs w (result_path conf year') /\
  fs w' (tmp_path conf year') = fs w (tmp_path conf year') /\
  forall n,
    fs w' (join (tmp_path conf year') n) = fs w (join (tmp_path conf year') n).
Proof.
  intros Hrun Hne.
  destruct (other_year_not_own conf year year' Hne) as (H1 & H2 & H3).
  pose proof (process_touches_own conf net year filename) as Hown.
  repeat split; [| | intros n]; eapply Hown; eauto.
Qed.

Lemma other_years_untouched_witness :
  let w' :=
    snd (process Scenario.conf_force (Scenario.serve 200 Scenario.archive_A3)
           Scenario.job_1901 Scenario.with_stale) in
  fs w' (result_path Scenario.conf_force "1902")
    = fs Scenario.with_stale (result_path Scenario.conf_force "1902") /\
  fs w' (tmp_path Scenario.conf_force "1902")
    = fs Scenario.with_stale (tmp_path Scenario.conf_force "1902") /\
  forall n,
    fs w' (join (tmp_path Scenario.conf_force "1902") n)
    = fs Scenario.with_stale (join (tmp_path Scenario.conf_force "1902") n).
Proof.
  intros w'.
  apply (other_years_untouched Scenario.conf_force
           (Scenario.serve 200 Scenario.archive_A3) "1901"
           Scenario.filename_1901 "1902" Scenario.with_stale w' (inr tt)).
  - vm_compute. reflexivity.
  - discriminate.
Defined.

(** The skip of lines 224-227, as an equation. *)
Lemma process_skips (conf : Config.t) (net : Http.Net)
    (year filename : string) (w : World) :
  let url := Config.url conf +:+ filename in
  Http.success (Http.status_code (net url)) = true ->
  Config.force conf = false ->
  isfile (fs w) (result_path conf year) = true ->
  process conf net (year, filename) w =
    (inr tt,
     mkWorld (fs w) (queue_done w ++ [year])
       (log w ++ [(INFO, Fetching url); (INFO, AlreadyExists year)])
       (trace w ++ [EvGet url])).
Proof.
  intros url Hok Hforce Hfile. unfold process. run_monad. fold url.
  rewrite Hok. cbn. rewrite Hfile, Hforce. cbn.
  rewrite <- app_assoc. reflexivity.
Qed.

(** X9: without [force], processing a year again after a job that
    returned (with the archive still answering a success status) changes
    no file: the second job only issues its GET and signals again. *)
Theorem rerun_is_skipped (conf : Config.t) (net : Http.Net)
    (year filename : string) (w w1 : World) :
  let url := Config.url conf +:+ filename in
  Http.success (Http.status_code (net url)) = true ->
  Config.force conf = false ->
  process conf net (year, filename) w = (inr tt, w1) ->
  exists w2,
    process conf net (year, filename) w1 = (inr tt, w2) /\
    fs w2 = fs w1 /\
    queue_done w2 = queue_done w1 ++ [year] /\
    trace w2 = trace w1 ++ [EvGet url].
Proof.
  intros url Hok Hforce Hrun.
  assert (Hfile : isfile (fs w1) (result_path conf year) = true).
  { destruct (isfile (fs w) (result_path conf year)) eqn:Hf.
    - rewrite (process_skips _ _ _ _ _ Hok Hforce Hf) in Hrun.
      injection Hrun as <-. exact Hf.
    - assert (Hskip : isfile (fs w) (result_path conf year)
                        && negb (Config.force conf) = false)
        by (rewrite Hf; reflexivity).
      destruct (process_completed _ _ _ _ _ _ Hok Hskip Hrun)
        as (ms & chunks & fs0 & fs1 & _ & _ & _ & _ & Hout & _).
      unfold isfile. rewrite Hout. reflexivity. }
  rewrite (process_skips _ _ _ _ _ Hok Hforce Hfile).
  eexists. split; [reflexivity |]. cbn. auto.
Qed.

Lemma rerun_is_skipped_witness :
  let w1 :=
    snd (process Scenario.conf_1901 (Scenario.serve 200 Scenario.archive_A3)
           Scenario.job_1901 Scenario.fresh) in
  exists w2,
    process Scenario.conf_1901 (Scenario.serve 200 Scenario.archive_A3)
      Scenario.job_1901 w1 = (inr tt, w2) /\
    fs w2 = fs w1 /\
    queue_done w2 = queue_done w1 ++ ["1901"] /\
    trace w2
    = trace w1 ++ [EvGet (Config.url Scenario.conf_1901
                            +:+ Scenario.filename_1901)].
Proof.
  intros w1.
  apply (rerun_is_skipped Scenario.conf_1901
           (Scenario.serve 200 Scenario.archive_A3) "1901"
           Scenario.filename_1901 Scenario.fresh w1);
    [reflexivity | reflexivity | vm_compute; reflexivity].
Defined.





End WorkerMore.

(** ** More on Master.start, Master.stop and main *)

Module MasterMore.

Import Master Scenario MasterFacts.

#[local] Set Warnings "-clear-no-such-hyp".

Lemma poll_unfold (start : Z) (pending : gset string) (ticks : list Tick)
    (m : t) :
  poll start pending ticks m =
    if decide (pending = ∅) then (Returned, logm INFO AllDone m)
    else
      match ticks with
      | [] => (Polling pending, m)
      | tick :: rest =>
          if Config.run_time_max (conf m) <? now tick - start
          then (Raised (RuntimeError "There is some dangling work."), m)
          else
            match any_dead (alive tick) (workers m) with
            | inl e => (Raised e, m)
            | inr true => (Raised (RuntimeError "Some worker is dead :(."), m)
            | inr false =>
                let pending' := drain pending (done tick) in
                poll start pending' rest (logm INFO (WaitingFor pending') m)
            end
      end.
Proof. destruct ticks; reflexivity. Qed.

Lemma poll_outcome (start : Z) (ticks : list Tick) :
  forall (pending : gset string) (m m' : t) (o : Outcome),
    poll start pending ticks m = (o, m') ->
    match o with
    | Returned => pending ⊆ list_to_set (signals_of ticks)
    | Polling remaining =>
        remaining = pending ∖ list_to_set (signals_of ticks) /\ remaining <> ∅
    | Raised _ => True
    end.
Proof.
  induction ticks as [|tick rest IH]; intros pending m m' o H;
    rewrite poll_unfold in H.
  - destruct (decide (pending = ∅)) as [-> | Hne]; injection H as <- _.
    + set_solver.
    + split; [| exact Hne]. unfold signals_of. simpl. set_solver.
  - destruct (decide (pending = ∅)) as [-> | Hne].
    { injection H as <- _. set_solver. }
    destruct (_ <? _); [injection H as <- _; exact I |].
    destruct (any_dead _ _) as [e | []]; try (injection H as <- _; exact I).
    cbv zeta in H. apply IH in H. rewrite drain_difference in H.
    unfold signals_of in *. simpl. rewrite list_to_set_app_L.
    clear IH.
    destruct o as [| e | remaining]; [| exact I |].
    + intros y Hy. apply elem_of_union.
      destruct (decide (y ∈ (list_to_set (done tick) : gset string)))
        as [Hin | Hout]; [left; exact Hin |].
      right. apply H. apply elem_of_difference. auto.
    + destruct H as [-> Hleft]. split; [| exact Hleft].
      apply set_eq. intros y.
      rewrite !elem_of_difference, elem_of_union. tauto.
Qed.

Lemma any_dead_started (alive : nat -> bool) (numbers : list nat) :
  any_dead alive (map Some numbers) = inr (negb (forallb alive numbers)).
Proof.
  induction numbers as [|i numbers IH]; simpl; [reflexivity |].
  destruct (alive i); [exact IH | reflexivity].
Qed.

Lemma poll_conf_workers (start : Z) (ticks : list Tick) :
  forall (pending : gset string) (m : t),
    conf (snd (poll start pending ticks m)) = conf m /\
    workers (snd (poll start pending ticks m)) = workers m /\
    queue (snd (poll start pending ticks m)) = queue m.
Proof.
  induction ticks as [|tick rest IH]; intros pending m; rewrite poll_unfold.
  - destruct (decide _); auto.
  - destruct (decide _); [auto |].
    destruct (_ <? _); [auto |].
    destruct (any_dead _ _) as [e | []]; auto.
    cbv zeta. destruct (IH (drain pending (done tick))
                          (logm INFO (WaitingFor (drain pending (done tick))) m))
      as (H1 & H2 & H3).
    rewrite H1, H2, H3. auto.
Qed.

(** Every observation is within the deadline and shows the workers
    [numbers] alive. *)
Lemma poll_returns (start : Z) (numbers : list nat) (ticks : list Tick) :
  forall (pending : gset string) (m : t),
    workers m = map Some numbers ->
    Forall (fun tick =>
              now tick - start <= Config.run_time_max (conf m) /\
              forallb (alive tick) numbers = true) ticks ->
    pending ⊆ list_to_set (signals_of ticks) ->
    fst (poll start pending ticks m) = Returned.
Proof.
  induction ticks as [|tick rest IH]; intros pending m Hws Hok Hsub;
    rewrite poll_unfold.
  - destruct (decide (pending = ∅)) as [| Hne]; [reflexivity |].
    exfalso. apply Hne. apply set_eq. intros y. split; [| set_solver].
    intros Hy. apply Hsub in Hy. unfold signals_of in Hy. simpl in Hy.
    set_solver.
  - destruct (decide (pending = ∅)); [reflexivity |].
    apply Forall_cons in Hok as [[Hnow Halive] Hok].
    destruct (Z.ltb_spec (Config.run_time_max (conf m)) (now tick - start));
      [lia |].
    rewrite Hws, any_dead_started, Halive. simpl.
    apply IH; [exact Hws | exact Hok |].
    rewrite drain_difference. intros y Hy.
    apply elem_of_difference in Hy as [Hy Hnot]. apply Hsub in Hy.
    unfold signals_of in Hy. simpl in Hy. rewrite list_to_set_app_L in Hy.
    apply elem_of_union in Hy as [Hy | Hy]; [contradiction | exact Hy].
Qed.

(** X15: in an iteration within the deadline that finds a started worker
    dead, [start] fails with [RuntimeError('Some worker is dead :(.')]
    before it drains [queue_done]: signals that are waiting there, even
    ones that would complete the run, are not looked at. *)
Theorem dead_worker_beats_signals (start : Z) (pending : gset string)
    (tick : Tick) (rest : list Tick) (m : t) (numbers : list nat)
    (number : nat) :
  pending <> ∅ ->
  now tick - start <= Config.run_time_max (conf m) ->
  workers m = map Some numbers ->
  In number numbers ->
  alive tick number = false ->
  poll start pending (tick :: rest) m
  = (Raised (RuntimeError "Some worker is dead :(."), m).
Proof.
  intros Hne Hnow Hws Hin Hdead. rewrite poll_unfold.
  destruct (decide (pending = ∅)); [contradiction |].
  destruct (Z.ltb_spec (Config.run_time_max (conf m)) (now tick - start));
    [lia |].
  rewrite Hws, any_dead_started.
  assert (forallb (alive tick) numbers = false) as ->; [| reflexivity].
  apply not_true_is_false. intros Hall.
  rewrite forallb_forall in Hall. rewrite (Hall _ Hin) in Hdead.
  discriminate.
Qed.

Lemma dead_worker_beats_signals_witness :
  poll 0 {["1901"]} [mkTick 10 (fun i => (i =? 0)%nat) ["1901"]] polling_1901
  = (Raised (RuntimeError "Some worker is dead :(."), polling_1901).
Proof.
  apply (dead_worker_beats_signals 0 {["1901"]}
           (mkTick 10 (fun i => (i =? 0)%nat) ["1901"]) [] polling_1901
           [0%nat; 1%nat] 1%nat).
  - apply (bool_decide_unpack _). vm_compute. exact I.
  - vm_compute. discriminate.
  - reflexivity.
  - right. left. reflexivity.
  - reflexivity.
Defined.

Lemma pending_of_elem (years : list string) (index : gmap string string)
    (y : string) :
  y ∈ pending_of years index <-> y ∈ years /\ is_Some (index !! y).
Proof.
  unfold pending_of. rewrite elem_of_list_to_set, list_elem_of_filter. tauto.
Qed.

Lemma jobs_of_available (index : gmap string string) (years : list string) :
  Forall (fun year => is_Some (index !! year)) years ->
  map fst (jobs_of index years) = years /\
  forall y f, In (y, f) (jobs_of index years) -> index !! y = Some f.
Proof.
  unfold jobs_of. induction years as [|y years IH]; intros Hall; simpl.
  - split; [reflexivity | intros ? ? []].
  - apply Forall_cons in Hall as [[f Hf] Hall]. rewrite Hf. simpl.
    destruct (IH Hall) as [IH1 IH2]. split; [f_equal; exact IH1 |].
    intros y' f' [H | H]; [injection H as <- <-; exact Hf | auto].
Qed.

Section StartMore.

Variable findall : Re.regex -> string -> list string.

(** X12: [start] returns normally only if the index was resolved and
    every requested year that the index lists was signalled on
    [queue_done] during the loop. *)
Theorem start_success_sound (net : Http.Net) (clock : Z) (ticks : list Tick)
    (c : Config.t) (m' : t) :
  start findall net clock ticks (init c) = (Returned, m') ->
  exists index,
    fetch_index findall net c = inr index /\
    forall year,
      In year (Config.years c) -> is_Some (index !! year) ->
      In year (signals_of ticks).
Proof.
  intros H.
  destruct (fetch_index findall net c) as [e | index] eqn:Hindex.
  { rewrite (start_aborts findall net clock ticks (init c) e Hindex) in H.
    discriminate. }
  exists index. split; [reflexivity |]. intros year Hy Hsome.
  destruct (decide (pending_of (Config.years c) index = ∅)) as [He | Hne].
  - exfalso. assert (year ∈ pending_of (Config.years c) index) as Hin
      by (apply pending_of_elem; split; [apply list_elem_of_In |]; assumption).
    rewrite He in Hin. apply elem_of_empty in Hin. exact Hin.
  - rewrite (start_polls findall net clock ticks c index Hindex Hne) in H.
    apply poll_outcome in H. apply list_elem_of_In.
    apply (elem_of_list_to_set (C := gset string)). apply H.
    apply pending_of_elem. split; [apply list_elem_of_In |]; assumption.
Qed.

(** X13: with a resolved index that lists a requested year, [start]
    returns normally when every iteration is within the deadline and finds
    every worker alive, and every requested year that the index lists is
    signalled during those iterations. *)
Theorem start_succeeds (net : Http.Net) (clock : Z) (ticks : list Tick)
    (c : Config.t) (index : gmap string string) :
  fetch_index findall net c = inr index ->
  (exists year, In year (Config.years c) /\ is_Some (index !! year)) ->
  Forall (fun tick =>
            now tick - clock <= Config.run_time_max c /\
            forallb (alive tick)
              (seq 0 (Z.to_nat (Config.workers_count c))) = true) ticks ->
  (forall year,
      In year (Config.years c) -> is_Some (index !! year) ->
      In year (signals_of ticks)) ->
  fst (start findall net clock ticks (init c)) = Returned.
Proof.
  intros Hindex (y0 & Hy0 & Hsome0) Hok Hsig.
  assert (Hne : pending_of (Config.years c) index <> ∅).
  { intros He.
    assert (y0 ∈ pending_of (Config.years c) index) as Hin
      by (apply pending_of_elem; split; [apply list_elem_of_In |]; assumption).
    rewrite He in Hin. apply elem_of_empty in Hin. exact Hin. }
  rewrite (start_polls findall net clock ticks c index Hindex Hne).
  eapply poll_returns; [reflexivity | exact Hok |].
  intros y Hy. apply pending_of_elem in Hy as [Hy Hsome].
  apply elem_of_list_to_set, list_elem_of_In, Hsig;
    [apply list_elem_of_In |]; assumption.
Qed.

(** X14: with a resolved index that lists a requested year, [start]
    starts every worker, logs nothing, and queues exactly one job for each
    requested year that the index lists, with the archive the index gives
    for it, and none for the other requested years, before it enters the
    loop. *)
Theorem start_one_job_per_year (net : Http.Net) (clock : Z)
    (ticks : list Tick) (c : Config.t) (index : gmap string string) :
  fetch_index findall net c = inr index ->
  (exists year, In year (Config.years c) /\ is_Some (index !! year)) ->
  exists m,
    start findall net clock ticks (init c)
    = poll clock (pending_of (Config.years c) index) ticks m /\
    conf m = c /\
    workers m = map Some (seq 0 (Z.to_nat (Config.workers_count c))) /\
    log m = [] /\
    NoDup (map fst (queue m)) /\
    (forall year,
        In year (map fst (queue m))
        <-> In year (Config.years c) /\ is_Some (index !! year)) /\
    (forall year filename,
        In (year, filename) (queue m) -> index !! year = Some filename).
Proof.
  intros Hindex (y0 & Hy0 & Hsome0).
  assert (Hne : pending_of (Config.years c) index <> ∅).
  { intros He.
    assert (y0 ∈ pending_of (Config.years c) index) as Hin
      by (apply pending_of_elem; split; [apply list_elem_of_In |]; assumption).
    rewrite He in Hin. apply elem_of_empty in Hin. exact Hin. }
  eexists. split; [apply (start_polls findall _ _ _ _ _ Hindex Hne) |].
  cbn [conf workers log queue].
  assert (Hall : Forall (fun year => is_Some (index !! year))
                   (elements (pending_of (Config.years c) index))).
  { apply Forall_forall. intros y Hy. apply elem_of_elements in Hy.
    apply pending_of_elem in Hy. tauto. }
  destruct (jobs_of_available index _ Hall) as [Hfst Hlookup].
  rewrite Hfst.
  split; [reflexivity |]. split; [reflexivity |]. split; [reflexivity |].
  split; [apply NoDup_elements |].
  split; [| exact Hlookup].
  intros year. rewrite <- !list_elem_of_In, elem_of_elements.
  apply pending_of_elem.
Qed.

End StartMore.

Lemma start_success_sound_witness :
  exists index,
    fetch_index finds_1901 (serve_text 200 listing_1901) conf_1901
      = inr index /\
    forall year,
      In year (Config.years conf_1901) -> is_Some (index !! year) ->
      In year (signals_of [mkTick 1 (fun _ => true) ["1901"]]).
Proof.
  apply (start_success_sound finds_1901 (serve_text 200 listing_1901) 0
           [mkTick 1 (fun _ => true) ["1901"]] conf_1901
           (snd (start finds_1901 (serve_text 200 listing_1901) 0
                   [mkTick 1 (fun _ => true) ["1901"]] (init conf_1901)))).
  vm_compute. reflexivity.
Defined.

Lemma start_succeeds_witness :
  fst (start finds_1901 (serve_text 200 listing_1901) 0
         [mkTick 1 (fun _ => true) []; mkTick 3 (fun _ => true) ["1901"]]
         (init conf_1901))
  = Returned.
Proof.
  apply (start_succeeds finds_1901 (serve_text 200 listing_1901) 0
           [mkTick 1 (fun _ => true) []; mkTick 3 (fun _ => true) ["1901"]]
           conf_1901 {[ "1901" := filename_1901 ]}).
  - vm_compute. reflexivity.
  - exists "1901". split; [left; reflexivity |].
    exists filename_1901. vm_compute. reflexivity.
  - repeat constructor; vm_compute; discriminate.
  - intros year [<- | []] _. unfold signals_of. simpl. left. reflexivity.
Defined.

Lemma start_one_job_per_year_witness :
  exists m,
    start finds_1901 (serve_text 200 listing_1901) 0 [] (init conf_1901)
    = poll 0 (pending_of (Config.years conf_1901)
                {[ "1901" := filename_1901 ]}) [] m /\
    conf m = conf_1901 /\
    workers m
    = map Some (seq 0 (Z.to_nat (Config.workers_count conf_1901))) /\
    log m = [] /\
    NoDup (map fst (queue m)) /\
    (forall year,
        In year (map fst (queue m))
        <-> In year (Config.years conf_1901)
            /\ is_Some (({[ "1901" := filename_1901 ]} : gmap string string)
                          !! year)) /\
    (forall year filename,
        In (year, filename) (queue m) ->
        ({[ "1901" := filename_1901 ]} : gmap string string) !! year
        = Some filename).
Proof.
  apply (start_one_job_per_year finds_1901 (serve_text 200 listing_1901) 0 []
           conf_1901 {[ "1901" := filename_1901 ]}).
  - vm_compute. reflexivity.
  - exists "1901". split; [left; reflexivity |].
    exists filename_1901. vm_compute. reflexivity.
Defined.

(** *** The index *)

Lemma year_field_none (filename : string) :
  Text.year_field filename = None <-> Py.contains "_" filename = false.
Proof.
  unfold Text.year_field. split.
  - intros H. destruct (Py.contains "_" filename) eqn:E; [| reflexivity].
    destruct (ConfigMore.split_two _ _ E) as (a & b & rest & Hs).
    rewrite Hs in H. discriminate.
  - intros H. rewrite (ConfigFacts.split_no_sep _ _ H). reflexivity.
Qed.

(** X17: the index is built when every matched filename holds an
    underscore; one filename without any makes the unpacking of
    [filename.split('_')] raise [ValueError]. *)
Theorem build_index_rejects_plain_names (filenames : list string)
    (index : gmap string string) :
  if forallb (Py.contains "_") filenames
  then exists built, build_index filenames index = inr built
  else build_index filenames index = inl ValueError.
Proof.
  revert index. induction filenames as [|f fs IH]; intros index; simpl.
  - eauto.
  - destruct (Py.contains "_" f) eqn:E; simpl.
    + destruct (ConfigMore.split_two _ _ E) as (a & y & rest & ->).
      apply IH.
    + rewrite (ConfigFacts.split_no_sep _ _ E). reflexivity.
Qed.

Lemma find_append {A : Type} (p : A -> bool) (l1 l2 : list A) :
  List.find p (l1 ++ l2) =
    match List.find p l1 with
    | Some x => Some x
    | None => List.find p l2
    end.
Proof.
  induction l1 as [|x l1 IH]; simpl; [reflexivity |].
  destruct (p x); [reflexivity | exact IH].
Qed.

(** X18: for every year the index holds the last listed filename whose
    second underscore-separated part is that year, and nothing for a year
    that no filename names. *)
Theorem build_index_entries (filenames : list string) :
  forall index built : gmap string string,
    build_index filenames index = inr built ->
    forall year,
      built !! year =
        match
          List.find (fun f => bool_decide (Text.year_field f = Some year))
            (rev filenames)
        with
        | Some filename => Some filename
        | None => index !! year
        end.
Proof.
  induction filenames as [|f fs IH]; intros index built H year; simpl in *.
  - injection H as <-. reflexivity.
  - destruct (Py.split "_" f) as [|a [|y rest]] eqn:Hs; try discriminate.
    rewrite (IH _ _ H year). rewrite find_append.
    destruct (find _ (rev fs)) as [g |]; [reflexivity |]. simpl.
    unfold Text.year_field. rewrite Hs.
    destruct (decide (y = year)) as [-> | Hne].
    + rewrite bool_decide_eq_true_2 by reflexivity. apply lookup_insert_eq.
    + rewrite bool_decide_eq_false_2 by congruence.
      apply lookup_insert_ne. exact Hne.
Qed.

Lemma build_index_entries_witness :
  ({[ "1901" := "isd_1901_b.tar.gz" ]} : gmap string string) !! "1901" =
    match
      List.find (fun f => bool_decide (Text.year_field f = Some "1901"))
        (rev ["isd_1901_a.tar.gz"; "isd_1901_b.tar.gz"])
    with
    | Some filename => Some filename
    | None => (∅ : gmap string string) !! "1901"
    end.
Proof.
  apply (build_index_entries ["isd_1901_a.tar.gz"; "isd_1901_b.tar.gz"] ∅).
  vm_compute. reflexivity.
Defined.

(** X16: after any number of iterations that raise nothing, a non-empty
    pending set is the initial one without the years signalled so far;
    signals for years that are not pending change nothing. *)
Theorem polling_pending (start : Z) (pending remaining : gset string)
    (ticks : list Tick) (m m' : t) :
  poll start pending ticks m = (Polling remaining, m') ->
  remaining = pending ∖ list_to_set (signals_of ticks) /\ remaining <> ∅.
Proof. intros H. apply poll_outcome in H. exact H. Qed.

Lemma polling_pending_witness :
  ({["1902"]} : gset string)
  = {["1901"; "1902"]}
      ∖ list_to_set (signals_of [mkTick 1 (fun _ => true) ["1901"; "1850"]]) /\
  ({["1902"]} : gset string) <> ∅.
Proof.
  apply (polling_pending 0 {["1901"; "1902"]} {["1902"]}
           [mkTick 1 (fun _ => true) ["1901"; "1850"]] polling_1901
           (snd (poll 0 {["1901"; "1902"]}
                   [mkTick 1 (fun _ => true) ["1901"; "1850"]] polling_1901))).
  vm_compute. reflexivity.
Defined.

(** *** stop and main *)

Import Shutdown.

Lemma started_none (n : nat) : started (replicate n None) = [].
Proof. induction n as [|n IH]; [reflexivity | exact IH]. Qed.

Lemma started_all (numbers : list nat) : started (map Some numbers) = numbers.
Proof.
  unfold started. induction numbers as [|i l IH]; simpl; [reflexivity |].
  f_equal. exact IH.
Qed.

Lemma filter_none {A : Type} (p : A -> bool) (l : list A) :
  existsb p l = false -> List.filter p l = [].
Proof.
  induction l as [|x l IH]; simpl; [reflexivity |].
  destruct (p x); [discriminate | exact IH].
Qed.

Section MainFacts.

Variable findall : Re.regex -> string -> list string.

Lemma start_workers (net : Http.Net) (clock : Z) (ticks : list Tick)
    (c : Config.t) (index : gmap string string) :
  fetch_index findall net c = inr index ->
  workers (snd (start findall net clock ticks (init c)))
  = map Some (seq 0 (Z.to_nat (Config.workers_count c))).
Proof.
  intros Hindex.
  destruct (decide (pending_of (Config.years c) index = ∅)) as [He | Hne].
  - unfold start. cbn [conf init workers queue log].
    rewrite Hindex, spawn_all, He.
    destruct (decide _) as [_ | Hx]; [reflexivity | contradiction].
  - rewrite (start_polls findall net clock ticks c index Hindex Hne).
    destruct (poll_conf_workers clock ticks (pending_of (Config.years c) index)
                (mk c (map Some (seq 0 (Z.to_nat (Config.workers_count c))))
                   (jobs_of index
                      (elements (pending_of (Config.years c) index))) []))
      as (_ & H & _).
    exact H.
Qed.

(** X19: when the index cannot be fetched or built, [main] raises that
    error after [stop]; no worker was started, so [stop] only closes the
    queues: it signals no process and logs no warning. *)
Theorem main_index_error (net : Http.Net) (clock : Z) (ticks : list Tick)
    (procs : Procs) (c : Config.t) (e : Exn) :
  fetch_index findall net c = inl e ->
  main findall net clock ticks procs c
  = (Raised e, init c,
     ([CloseQueue; CloseQueueDone],
      [(INFO, ShuttingDown); (INFO, TryingToTerminate)])).
Proof.
  intros H. unfold main.
  rewrite (start_aborts findall net clock ticks (init c) e H).
  unfold stop. cbn [workers init]. rewrite started_none. reflexivity.
Qed.

(** X20: once the index is resolved, whatever the outcome of [start],
    [stop] closes the queues, sends terminate to each of the
    [workers_count] workers alive at that time, and after the grace period
    kills exactly those still alive, with a warning only if there is
    one. *)
Theorem main_signals_every_worker (net : Http.Net) (clock : Z)
    (ticks : list Tick) (procs : Procs) (c : Config.t)
    (index : gmap string string) :
  let numbers := seq 0 (Z.to_nat (Config.workers_count c)) in
  fetch_index findall net c = inr index ->
  fst (fst (main findall net clock ticks procs c))
  = fst (start findall net clock ticks (init c)) /\
  snd (main findall net clock ticks procs c)
  = ([CloseQueue; CloseQueueDone]
       ++ map Terminate (List.filter (alive_before procs) numbers)
       ++ map Kill (List.filter (alive_after procs) numbers),
     [(INFO, ShuttingDown); (INFO, TryingToTerminate)]
       ++ (if existsb (alive_after procs) numbers
           then [(WARNING, DidNotStop)] else [])).
Proof.
  intros numbers Hindex. unfold main.
  pose proof (start_workers net clock ticks c index Hindex) as Hws.
  destruct (start findall net clock ticks (init c)) as [o m] eqn:Hstart.
  simpl in Hws. split; [reflexivity |]. simpl.
  unfold stop. rewrite Hws, started_all. fold numbers.
  destruct (existsb (alive_after procs) numbers) eqn:E; simpl.
  - reflexivity.
  - rewrite (filter_none _ _ E). simpl. rewrite app_nil_r. reflexivity.
Qed.

End MainFacts.

Lemma main_index_error_witness :
  main finds_1901 (serve_text 503 EmptyString) 0 []
    (mkProcs (fun _ => true) (fun _ => true)) conf_1901
  = (Raised (HTTPError 503), init conf_1901,
     ([CloseQueue; CloseQueueDone],
      [(INFO, ShuttingDown); (INFO, TryingToTerminate)])).
Proof.
  apply (main_index_error finds_1901 (serve_text 503 EmptyString) 0 []
           (mkProcs (fun _ => true) (fun _ => true)) conf_1901
           (HTTPError 503)).
  vm_compute. reflexivity.
Defined.

Lemma main_signals_every_worker_witness :
  fst (fst (main finds_1901 (serve_text 200 listing_1901) 0 [tick_late]
              (mkProcs (fun _ => true) (fun i => (i =? 1)%nat)) conf_1901))
  = Raised (RuntimeError "There is some dangling work.") /\
  snd (main finds_1901 (serve_text 200 listing_1901) 0 [tick_late]
         (mkProcs (fun _ => true) (fun i => (i =? 1)%nat)) conf_1901)
  = ([CloseQueue; CloseQueueDone; Terminate 0; Terminate 1; Kill 1],
     [(INFO, ShuttingDown); (INFO, TryingToTerminate);
      (WARNING, DidNotStop)]).
Proof.
  assert (H : fetch_index finds_1901 (serve_text 200 listing_1901) conf_1901
              = inr {[ "1901" := filename_1901 ]})
    by (vm_compute; reflexivity).
  pose proof (main_signals_every_worker finds_1901
                (serve_text 200 listing_1901) 0 [tick_late]
                (mkProcs (fun _ => true) (fun i => (i =? 1)%nat)) conf_1901
                {[ "1901" := filename_1901 ]} H) as Hmain.
  vm_compute in Hmain. vm_compute. exact Hmain.
Defined.

End MasterMore.
